(** * graphics-debug: the scene-to-SVG projection pipeline

    A shallow embedding of [src/lib/getSvgFromGraphicsObject.ts].

    The TypeScript code computes on JavaScript numbers.  The functions are
    embedded once, over an interface [Number] of the numeric operations the
    source uses, and the interface is instantiated twice:

    - [float]: IEEE 754 binary64 (Rocq's primitive floats), which is what
      a JavaScript engine computes, bit for bit;
    - [xnum]: exact rationals extended with the two infinities and NaN
      (no rounding, same special values), used for [getBounds], which only
      compares and selects its numbers.

    The element tree the function hands to the serializer is the result;
    [svgson.stringify] and [pretty] are outside the embedding. *)

From Stdlib Require Import ZArith QArith Qabs Floats.
From Stdlib Require Import List String Bool Lia Lqa.
Import ListNotations.

Set Implicit Arguments.

(** ** Numbers *)

Declare Scope js_scope.
Delimit Scope js_scope with js.

Class Number (num : Type) : Type := {
  lit : Z -> num;                  (* an integer literal of the source *)
  Infinity : num;                  (* the global [Infinity] *)
  add : num -> num -> num;
  sub : num -> num -> num;
  mul : num -> num -> num;
  div : num -> num -> num;
  neg : num -> num;                (* unary minus *)
  Math_min : num -> num -> num;
  Math_max : num -> num -> num;
  Math_abs : num -> num;
  falsy : num -> bool;             (* ToBoolean gives false: 0, -0, NaN *)
  isFinite : num -> bool           (* neither NaN nor an infinity *)
}.

Infix "+" := add : js_scope.
Infix "-" := sub : js_scope.
Infix "*" := mul : js_scope.
Infix "/" := div : js_scope.
Notation "- x" := (neg x) : js_scope.

(** *** IEEE 754 binary64 *)

Definition float_of_Z (z : Z) : float :=
  match z with
  | Zneg p => PrimFloat.opp (PrimFloat.of_uint63 (Uint63.of_Z (Zpos p)))
  | _ => PrimFloat.of_uint63 (Uint63.of_Z z)
  end.

(** [Math.min]: NaN if an argument is NaN, and -0 is smaller than +0. *)
Definition float_min (u v : float) : float :=
  if (PrimFloat.is_nan u || PrimFloat.is_nan v)%bool then PrimFloat.nan
  else if PrimFloat.ltb u v then u
  else if PrimFloat.ltb v u then v
  else if PrimFloat.get_sign u then u else v.

(** [Math.max]: NaN if an argument is NaN, and +0 is larger than -0. *)
Definition float_max (u v : float) : float :=
  if (PrimFloat.is_nan u || PrimFloat.is_nan v)%bool then PrimFloat.nan
  else if PrimFloat.ltb u v then v
  else if PrimFloat.ltb v u then u
  else if PrimFloat.get_sign u then v else u.

#[export] Instance float_Number : Number float := {|
  lit := float_of_Z;
  Infinity := PrimFloat.infinity;
  add := PrimFloat.add;
  sub := PrimFloat.sub;
  mul := PrimFloat.mul;
  div := PrimFloat.div;
  neg := PrimFloat.opp;
  Math_min := float_min;
  Math_max := float_max;
  Math_abs := PrimFloat.abs;
  falsy := fun u => (PrimFloat.is_zero u || PrimFloat.is_nan u)%bool;
  isFinite := PrimFloat.is_finite
|}.

(** *** Exact arithmetic with the special values

    Rationals, the two infinities and NaN.  The operations are exact on
    finite values and follow IEEE 754 on the special ones; there is one
    zero, which divides like +0. *)

Inductive xnum : Type :=
| XNaN
| XInf (negative : bool)
| XFin (q : Q).

Definition Qnegative (q : Q) : bool := negb (Qle_bool 0 q).

Definition xadd (u v : xnum) : xnum :=
  match u, v with
  | XNaN, _ | _, XNaN => XNaN
  | XInf s, XInf t => if Bool.eqb s t then XInf s else XNaN
  | XInf s, XFin _ => XInf s
  | XFin _, XInf t => XInf t
  | XFin p, XFin q => XFin (p + q)
  end.

Definition xneg (u : xnum) : xnum :=
  match u with
  | XNaN => XNaN
  | XInf s => XInf (negb s)
  | XFin q => XFin (- q)
  end.

Definition xsub (u v : xnum) : xnum := xadd u (xneg v).

Definition xmul (u v : xnum) : xnum :=
  match u, v with
  | XNaN, _ | _, XNaN => XNaN
  | XInf s, XInf t => XInf (xorb s t)
  | XInf s, XFin q | XFin q, XInf s =>
      if Qeq_bool q 0 then XNaN else XInf (xorb s (Qnegative q))
  | XFin p, XFin q => XFin (p * q)
  end.

Definition xdiv (u v : xnum) : xnum :=
  match u, v with
  | XNaN, _ | _, XNaN => XNaN
  | XInf _, XInf _ => XNaN
  | XInf s, XFin q => XInf (xorb s (Qnegative q))
  | XFin _, XInf _ => XFin 0
  | XFin p, XFin q =>
      if Qeq_bool q 0
      then if Qeq_bool p 0 then XNaN else XInf (Qnegative p)
      else XFin (p / q)
  end.

(** [u < v]; false when an argument is NaN. *)
Definition xltb (u v : xnum) : bool :=
  match u, v with
  | XNaN, _ | _, XNaN => false
  | XInf s, XInf t => s && negb t
  | XInf s, XFin _ => s
  | XFin _, XInf t => negb t
  | XFin p, XFin q => negb (Qle_bool q p)
  end.

Definition xmin (u v : xnum) : xnum :=
  match u, v with
  | XNaN, _ | _, XNaN => XNaN
  | _, _ => if xltb v u then v else u
  end.

Definition xmax (u v : xnum) : xnum :=
  match u, v with
  | XNaN, _ | _, XNaN => XNaN
  | _, _ => if xltb u v then v else u
  end.

Definition xabs (u : xnum) : xnum :=
  match u with
  | XNaN => XNaN
  | XInf _ => XInf false
  | XFin q => XFin (Qabs q)
  end.

Definition xfalsy (u : xnum) : bool :=
  match u with
  | XNaN => true
  | XInf _ => false
  | XFin q => Qeq_bool q 0
  end.

Definition xfinite (u : xnum) : bool :=
  match u with
  | XFin _ => true
  | _ => false
  end.

#[export] Instance xnum_Number : Number xnum := {|
  lit := fun z => XFin (inject_Z z);
  Infinity := XInf false;
  add := xadd;
  sub := xsub;
  mul := xmul;
  div := xdiv;
  neg := xneg;
  Math_min := xmin;
  Math_max := xmax;
  Math_abs := xabs;
  falsy := xfalsy;
  isFinite := xfinite
|}.

(** ** The data model *)

(** Modelled from the spec: [./types] (the declarations of [Point] and
    [GraphicsObject]) is not among the sources; the fields are those of
    section 3 of the specification and of the uses in the code.  An optional
    field is an [option]. *)
Module Point.
Record t (num : Type) : Type := mk {
  x : num;
  y : num;
  color : option string;
  label : option string;
  stroke : option num
}.
Arguments mk {num}.
Arguments x {num}.
Arguments y {num}.
Arguments color {num}.
Arguments label {num}.
Arguments stroke {num}.
End Point.

(** Modelled from the spec: a line of [./types], an ordered sequence of
    points. *)
Module Line.
Record t (num : Type) : Type := mk { points : list (Point.t num) }.
Arguments mk {num}.
Arguments points {num}.
End Line.

(** Modelled from the spec: a rect of [./types]. *)
Module Rect.
Record t (num : Type) : Type := mk {
  center : Point.t num;
  width : num;
  height : num;
  fill : option string;
  stroke : option string
}.
Arguments mk {num}.
Arguments center {num}.
Arguments width {num}.
Arguments height {num}.
Arguments fill {num}.
Arguments stroke {num}.
End Rect.

(** Modelled from the spec: a circle of [./types]. *)
Module Circle.
Record t (num : Type) : Type := mk {
  center : Point.t num;
  radius : num;
  fill : option string;
  stroke : option string
}.
Arguments mk {num}.
Arguments center {num}.
Arguments radius {num}.
Arguments fill {num}.
Arguments stroke {num}.
End Circle.

(** Modelled from the spec: the two coordinate-system tags of [./types]. *)
Inductive CoordinateSystem : Type := math | screen.

(** Modelled from the spec: [GraphicsObject["graphics"]] of [./types]; the
    four collections may be absent. *)
Module Graphics.
Record t (num : Type) : Type := mk {
  points : option (list (Point.t num));
  lines : option (list (Line.t num));
  rects : option (list (Rect.t num));
  circles : option (list (Circle.t num));
  coordinateSystem : CoordinateSystem
}.
Arguments mk {num}.
Arguments points {num}.
Arguments lines {num}.
Arguments rects {num}.
Arguments circles {num}.
Arguments coordinateSystem {num}.
End Graphics.

Module Bounds.
Record t (num : Type) : Type := mk {
  minX : num;
  maxX : num;
  minY : num;
  maxY : num
}.
Arguments mk {num}.
Arguments minX {num}.
Arguments maxX {num}.
Arguments minY {num}.
Arguments maxY {num}.
End Bounds.

(** The [Matrix] of the package transformation-matrix:
    x' = a x + c y + e and y' = b x + d y + f. *)
Module Matrix.
Record t (num : Type) : Type := mk {
  a : num;
  c : num;
  e : num;
  b : num;
  d : num;
  f : num
}.
Arguments mk {num}.
Arguments a {num}.
Arguments c {num}.
Arguments e {num}.
Arguments b {num}.
Arguments d {num}.
Arguments f {num}.
End Matrix.

(** ** Strings and the element tree *)

(** A string the code builds, as the pieces it is concatenated from.  The
    decimal digits of a number are left symbolic: [NumberToString u] stands
    for [u.toString()] (also for [${u}] in a template), [JsonMatrix m] for
    [JSON.stringify(m)]. *)
Inductive piece (num : Type) : Type :=
| Chars (s : string)
| NumberToString (u : num)
| JsonMatrix (m : Matrix.t num).
Arguments Chars {num}.
Arguments NumberToString {num}.
Arguments JsonMatrix {num}.

Definition jsstring (num : Type) : Type := list (piece num).

(** The nodes svgson serializes: elements and text leaves.  An element
    written without [attributes] or without [children] has none. *)
#[local] Unset Elimination Schemes.
Inductive Node (num : Type) : Type :=
| Element (name : string) (attributes : list (string * jsstring num))
          (children : list (Node num))
| TextNode (value : jsstring num).
#[local] Set Elimination Schemes.
Arguments Element {num}.
Arguments TextNode {num}.

(** What a call produces: a value, or the TypeError of reading a property
    of [undefined]. *)
Inductive result (A : Type) : Type :=
| Ok (v : A)
| TypeError.
Arguments Ok {A}.
Arguments TypeError {A}.

(** ** The pipeline *)

Section Pipeline.
Context {num : Type} `{Number num}.
Local Open Scope string_scope.
Local Open Scope list_scope.
Local Open Scope js_scope.

Definition str (s : string) : jsstring num := [Chars s].
Definition toString (u : num) : jsstring num := [NumberToString u].

(** [o || dflt] on an optional string: the empty string is falsy. *)
Definition string_or (o : option string) (dflt : string) : string :=
  match o with
  | Some s => if String.eqb s EmptyString then dflt else s
  | None => dflt
  end.

(** [o || dflt] on an optional number. *)
Definition number_or (o : option num) (dflt : num) : num :=
  match o with
  | Some u => if falsy u then dflt else u
  | None => dflt
  end.

(** [o || []] on an optional array. *)
Definition array_or {A : Type} (o : option (list A)) : list A :=
  match o with
  | Some l => l
  | None => []
  end.

Definition DEFAULT_SVG_SIZE : num := lit 640.
Definition PADDING : num := lit 40.

(** *** transformation-matrix

    The functions imported from the package, as it publishes them:
    [translate], [scale] (without a center), the product [multiply] that
    [transform] folds from the left over its arguments ([compose] is
    [transform]), and [applyToPoint]. *)

Definition translate (tx ty : num) : Matrix.t num :=
  Matrix.mk (lit 1) (lit 0) tx (lit 0) (lit 1) ty.

Definition scale (sx sy : num) : Matrix.t num :=
  Matrix.mk sx (lit 0) (lit 0) (lit 0) sy (lit 0).

Definition multiply (m1 m2 : Matrix.t num) : Matrix.t num :=
  {| Matrix.a := Matrix.a m1 * Matrix.a m2 + Matrix.c m1 * Matrix.b m2;
     Matrix.c := Matrix.a m1 * Matrix.c m2 + Matrix.c m1 * Matrix.d m2;
     Matrix.e := Matrix.a m1 * Matrix.e m2 + Matrix.c m1 * Matrix.f m2
                 + Matrix.e m1;
     Matrix.b := Matrix.b m1 * Matrix.a m2 + Matrix.d m1 * Matrix.b m2;
     Matrix.d := Matrix.b m1 * Matrix.c m2 + Matrix.d m1 * Matrix.d m2;
     Matrix.f := Matrix.b m1 * Matrix.e m2 + Matrix.d m1 * Matrix.f m2
                 + Matrix.f m1 |}.

(** [compose(m, ...rest)]: one matrix is returned as it is. *)
Definition compose (m : Matrix.t num) (rest : list (Matrix.t num))
  : Matrix.t num :=
  fold_left multiply rest m.

Definition applyToPoint (matrix : Matrix.t num) (p : num * num)
  : num * num :=
  (Matrix.a matrix * fst p + Matrix.c matrix * snd p + Matrix.e matrix,
   Matrix.b matrix * fst p + Matrix.d matrix * snd p + Matrix.f matrix).

(** *** getBounds *)

(** An object literal [{ x, y }]. *)
Definition xy (u v : num) : Point.t num := Point.mk u v None None None.

Definition rectCorners (rect : Rect.t num) : list (Point.t num) :=
  let halfWidth := Rect.width rect / lit 2 in
  let halfHeight := Rect.height rect / lit 2 in
  let cx := Point.x (Rect.center rect) in
  let cy := Point.y (Rect.center rect) in
  [ xy (cx - halfWidth) (cy - halfHeight);
    xy (cx + halfWidth) (cy - halfHeight);
    xy (cx - halfWidth) (cy + halfHeight);
    xy (cx + halfWidth) (cy + halfHeight) ].

Definition circleExtremes (circle : Circle.t num) : list (Point.t num) :=
  let cx := Point.x (Circle.center circle) in
  let cy := Point.y (Circle.center circle) in
  let r := Circle.radius circle in
  [ xy (cx - r) cy; xy (cx + r) cy; xy cx (cy - r); xy cx (cy + r) ].

(** The array [points] that [getBounds] collects. *)
Definition boundsPoints (graphics : Graphics.t num) : list (Point.t num) :=
  array_or (Graphics.points graphics)
  ++ flat_map Line.points (array_or (Graphics.lines graphics))
  ++ flat_map rectCorners (array_or (Graphics.rects graphics))
  ++ flat_map circleExtremes (array_or (Graphics.circles graphics)).

Definition extend (bounds : Bounds.t num) (point : Point.t num)
  : Bounds.t num :=
  {| Bounds.minX := Math_min (Bounds.minX bounds) (Point.x point);
     Bounds.maxX := Math_max (Bounds.maxX bounds) (Point.x point);
     Bounds.minY := Math_min (Bounds.minY bounds) (Point.y point);
     Bounds.maxY := Math_max (Bounds.maxY bounds) (Point.y point) |}.

Definition fallbackBounds : Bounds.t num :=
  Bounds.mk (lit (-1)) (lit 1) (lit (-1)) (lit 1).

Definition getBounds (graphics : Graphics.t num) : Bounds.t num :=
  match boundsPoints graphics with
  | [] => fallbackBounds
  | points =>
      fold_left extend points
        (Bounds.mk Infinity (- Infinity) Infinity (- Infinity))
  end.

(** *** getProjectionMatrix *)

(** The local [scale_factor] of [getProjectionMatrix]. *)
Definition scale_factor (bounds : Bounds.t num) : num :=
  let width := Bounds.maxX bounds - Bounds.minX bounds in
  let height := Bounds.maxY bounds - Bounds.minY bounds in
  Math_min ((DEFAULT_SVG_SIZE - lit 2 * PADDING) / width)
           ((DEFAULT_SVG_SIZE - lit 2 * PADDING) / height).

Definition getProjectionMatrix (bounds : Bounds.t num)
    (coordinateSystem : CoordinateSystem) : Matrix.t num :=
  let width := Bounds.maxX bounds - Bounds.minX bounds in
  let height := Bounds.maxY bounds - Bounds.minY bounds in
  let scale_factor := scale_factor bounds in
  compose
    (translate (DEFAULT_SVG_SIZE / lit 2) (DEFAULT_SVG_SIZE / lit 2))
    [ scale scale_factor
        (match coordinateSystem with
         | screen => - scale_factor
         | math => scale_factor
         end);
      translate (- (Bounds.minX bounds + width / lit 2))
                (- (Bounds.minY bounds + height / lit 2)) ].

(** *** projectPoint *)

Definition projectPoint (point : Point.t num) (matrix : Matrix.t num)
  : Point.t num :=
  let projected := applyToPoint matrix (Point.x point, Point.y point) in
  {| Point.x := fst projected;
     Point.y := snd projected;
     Point.color := Point.color point;
     Point.label := Point.label point;
     Point.stroke := Point.stroke point |}.

(** *** The document assembler *)

(** [p.label ? [ ... ] : []]: an absent or empty label is falsy. *)
Definition truthy_string (o : option string) : option string :=
  match o with
  | Some s => if String.eqb s EmptyString then None else Some s
  | None => None
  end.

(** [parts.join(sep)] *)
Fixpoint join (sep : jsstring num) (parts : list (jsstring num))
  : jsstring num :=
  match parts with
  | [] => []
  | [part] => part
  | part :: rest => part ++ sep ++ join sep rest
  end.

(** [array.map(f)] for an [f] that may throw. *)
Fixpoint mapM {A B : Type} (f : A -> result B) (l : list A)
  : result (list B) :=
  match l with
  | [] => Ok []
  | u :: rest =>
      match f u with
      | TypeError => TypeError
      | Ok v =>
          match mapM f rest with
          | TypeError => TypeError
          | Ok vs => Ok (v :: vs)
          end
      end
  end.

Definition pointNode (matrix : Matrix.t num) (point : Point.t num)
  : Node num :=
  let projected := projectPoint point matrix in
  Element "g" []
    (Element "circle"
       [ ("cx", toString (Point.x projected));
         ("cy", toString (Point.y projected));
         ("r", str "3");
         ("fill", str (string_or (Point.color point) "black")) ]
       []
     :: match truthy_string (Point.label point) with
        | Some label =>
            [ Element "text"
                [ ("x", toString (Point.x projected + lit 5));
                  ("y", toString (Point.y projected - lit 5));
                  ("font-family", str "sans-serif");
                  ("font-size", str "12") ]
                [ TextNode (str label) ] ]
        | None => []
        end).

(** [line.points[0]] is [undefined] for a line without points, and reading
    its [stroke] throws. *)
Definition polylineNode (matrix : Matrix.t num) (line : Line.t num)
  : result (Node num) :=
  let points :=
    join (str " ")
      (map (fun p => [NumberToString (Point.x p); Chars ",";
                      NumberToString (Point.y p)])
         (map (fun p => projectPoint p matrix) (Line.points line))) in
  match Line.points line with
  | [] => TypeError
  | first :: _ =>
      Ok (Element "polyline"
            [ ("points", points);
              ("fill", str "none");
              ("stroke", str "black");
              ("stroke-width",
               toString (number_or (Point.stroke first) (lit 1))) ]
            [])
  end.

Definition rectNode (matrix : Matrix.t num) (rect : Rect.t num)
  : Node num :=
  let projected := projectPoint (Rect.center rect) matrix in
  let scaledWidth := Rect.width rect * Matrix.a matrix in
  let scaledHeight := Rect.height rect * Matrix.d matrix in
  Element "rect"
    [ ("x", toString (Point.x projected - scaledWidth / lit 2));
      ("y", toString (Point.y projected - scaledHeight / lit 2));
      ("width", toString scaledWidth);
      ("height", toString (Math_abs scaledHeight));
      ("fill", str (string_or (Rect.fill rect) "none"));
      ("stroke", str (string_or (Rect.stroke rect) "black")) ]
    [].

Definition circleNode (matrix : Matrix.t num) (circle : Circle.t num)
  : Node num :=
  let projected := projectPoint (Circle.center circle) matrix in
  let scaledRadius := Circle.radius circle * Math_abs (Matrix.a matrix) in
  Element "circle"
    [ ("cx", toString (Point.x projected));
      ("cy", toString (Point.y projected));
      ("r", toString scaledRadius);
      ("fill", str (string_or (Circle.fill circle) "none"));
      ("stroke", str (string_or (Circle.stroke circle) "black")) ]
    [].

(** Crosshair lines and coordinates, initially hidden. *)
Definition crosshairNode : Node num :=
  Element "g"
    [ ("id", str "crosshair"); ("style", str "display: none") ]
    [ Element "line"
        [ ("id", str "crosshair-h");
          ("y1", str "0");
          ("y2", toString DEFAULT_SVG_SIZE);
          ("stroke", str "#666");
          ("stroke-width", str "0.5") ]
        [];
      Element "line"
        [ ("id", str "crosshair-v");
          ("x1", str "0");
          ("x2", toString DEFAULT_SVG_SIZE);
          ("stroke", str "#666");
          ("stroke-width", str "0.5") ]
        [];
      Element "text"
        [ ("id", str "coordinates");
          ("font-family", str "monospace");
          ("font-size", str "12");
          ("fill", str "#666") ]
        [ TextNode (str "") ] ].

(** The text of the mouse tracking script: a template with the canvas size
    and the matrix written into it. *)
Definition scriptText (matrix : Matrix.t num) : jsstring num :=
  [ Chars "
              document.currentScript.parentElement.addEventListener('mousemove', (e) => {
                const svg = e.currentTarget;
                const rect = svg.getBoundingClientRect();
                const x = e.clientX - rect.left;
                const y = e.clientY - rect.top;
                const crosshair = svg.getElementById('crosshair');
                const h = svg.getElementById('crosshair-h');
                const v = svg.getElementById('crosshair-v');
                const coords = svg.getElementById('coordinates');
                
                crosshair.style.display = 'block';
                h.setAttribute('x1', '0');
                h.setAttribute('x2', '";
    NumberToString DEFAULT_SVG_SIZE;
    Chars "');
                h.setAttribute('y1', y);
                h.setAttribute('y2', y);
                v.setAttribute('x1', x);
                v.setAttribute('x2', x);
                v.setAttribute('y1', '0');
                v.setAttribute('y2', '";
    NumberToString DEFAULT_SVG_SIZE;
    Chars "');

                // Calculate real coordinates using inverse transformation
                const matrix = ";
    JsonMatrix matrix;
    Chars ";
                // Manually invert and apply the affine transform
                // Since we only use translate and scale, we can directly compute:
                // x' = (x - tx) / sx
                // y' = (y - ty) / sy
                const sx = matrix.a;
                const sy = matrix.d;
                const tx = matrix.e; 
                const ty = matrix.f;
                const realPoint = {
                  x: (x - tx) / sx,
                  y: -(y - ty) / sy // Flip y back since we used negative scale
                }
                
                coords.textContent = `(${realPoint.x.toFixed(2)}, ${realPoint.y.toFixed(2)})`;
                coords.setAttribute('x', (x + 5).toString());
                coords.setAttribute('y', (y - 5).toString());
              });
              document.currentScript.parentElement.addEventListener('mouseleave', () => {
                document.currentScript.parentElement.getElementById('crosshair').style.display = 'none';
              });
            " ].

Definition scriptNode (matrix : Matrix.t num) : Node num :=
  Element "script" [] [ TextNode (scriptText matrix) ].

(** The local [matrix] of [getSvgFromGraphicsObject]. *)
Definition sceneMatrix (graphics : Graphics.t num) : Matrix.t num :=
  let bounds := getBounds graphics in
  compose
    (getProjectionMatrix bounds (Graphics.coordinateSystem graphics)) [].

(** The tree [svgObject] that [getSvgFromGraphicsObject] serializes, or the
    exception it throws. *)
Definition getSvgFromGraphicsObject (graphics : Graphics.t num)
  : result (Node num) :=
  let matrix := sceneMatrix graphics in
  match mapM (polylineNode matrix) (array_or (Graphics.lines graphics)) with
  | TypeError => TypeError
  | Ok polylines =>
      Ok (Element "svg"
            [ ("width", toString DEFAULT_SVG_SIZE);
              ("height", toString DEFAULT_SVG_SIZE);
              ("viewBox",
               [ Chars "0 0 "; NumberToString DEFAULT_SVG_SIZE; Chars " ";
                 NumberToString DEFAULT_SVG_SIZE ]);
              ("xmlns", str "http://www.w3.org/2000/svg") ]
            (map (pointNode matrix) (array_or (Graphics.points graphics))
             ++ polylines
             ++ map (rectNode matrix) (array_or (Graphics.rects graphics))
             ++ map (circleNode matrix)
                  (array_or (Graphics.circles graphics))
             ++ [ crosshairNode; scriptNode matrix ]))
  end.

(** *** The mouse tracking script *)

(** The number the script computes with where [JSON.stringify] wrote [u].
    A finite number is written in the decimal form that reads back as the
    number itself, -0 as [0]; NaN and the infinities are written [null],
    which counts as 0 in arithmetic. *)
Definition viaJSON (u : num) : num :=
  if isFinite u then (if falsy u then lit 0 else u) else lit 0.

(** What the [mousemove] handler computes from the canvas position [(x, y)]
    of the pointer and the matrix written into the script: the point whose
    coordinates it shows. *)
Definition realPoint (matrix : Matrix.t num) (x y : num) : num * num :=
  let sx := viaJSON (Matrix.a matrix) in
  let sy := viaJSON (Matrix.d matrix) in
  let tx := viaJSON (Matrix.e matrix) in
  let ty := viaJSON (Matrix.f matrix) in
  ((x - tx) / sx, - (y - ty) / sy).

(** *** Reading the tree *)

Definition children (n : Node num) : list (Node num) :=
  match n with
  | Element _ _ cs => cs
  | TextNode _ => []
  end.

Definition nodeName (n : Node num) : option string :=
  match n with
  | Element name _ _ => Some name
  | TextNode _ => None
  end.

Fixpoint lookup (key : string) (attrs : list (string * jsstring num))
  : option (jsstring num) :=
  match attrs with
  | [] => None
  | (k, v) :: rest => if String.eqb k key then Some v else lookup key rest
  end.

Definition attribute (key : string) (n : Node num) : option (jsstring num) :=
  match n with
  | Element _ attrs _ => lookup key attrs
  | TextNode _ => None
  end.

(** The number a string is the decimal form of, when the code made it by
    [toString] alone. *)
Definition numberOf (s : option (jsstring num)) : option num :=
  match s with
  | Some [NumberToString u] => Some u
  | _ => None
  end.

End Pipeline.

(** ** Sample scenes, in IEEE arithmetic *)

Module Samples.
Local Open Scope string_scope.
Local Open Scope list_scope.
Local Open Scope float_scope.

Definition pt (u v : float) : Point.t float := Point.mk u v None None None.

(** [{ points: [{ x: 0, y: 0 }], coordinateSystem }] *)
Definition singlePoint (cs : CoordinateSystem) : Graphics.t float :=
  Graphics.mk (Some [pt 0 0]) None None None cs.

(** [{ points: [{ x: 0, y: 0 }, { x: 1, y: 1 }], coordinateSystem }] *)
Definition diagonal (cs : CoordinateSystem) : Graphics.t float :=
  Graphics.mk (Some [pt 0 0; pt 1 1]) None None None cs.

(** [{ rects: [{ center: { x: 0, y: 0 }, width: 2, height: 2 }],
       coordinateSystem }] *)
Definition square (cs : CoordinateSystem) : Graphics.t float :=
  Graphics.mk None None (Some [Rect.mk (pt 0 0) 2 2 None None]) None cs.

(** [{ lines: [{ points: [{ x: 0, y: 0, stroke: 2 }, { x: 1, y: 1 }] }],
       coordinateSystem: "math" }] *)
Definition thickLine : Line.t float :=
  Line.mk [Point.mk 0 0 None None (Some 2); pt 1 1].
Definition stroked : Graphics.t float :=
  Graphics.mk None (Some [thickLine]) None None math.

(** The root element around the given children. *)
Definition canvas (nodes : list (Node float)) : Node float :=
  Element "svg"
    [ ("width", toString 640); ("height", toString 640);
      ("viewBox",
       [ Chars "0 0 "; NumberToString 640; Chars " "; NumberToString 640 ]);
      ("xmlns", str "http://www.w3.org/2000/svg") ]
    nodes.

(** The tree of [stroked]. *)
Definition strokedDocument : Node float :=
  canvas
    [ Element "polyline"
        [ ("points",
           [ NumberToString 40; Chars ","; NumberToString 40; Chars " ";
             NumberToString 600; Chars ","; NumberToString 600 ]);
          ("fill", str "none");
          ("stroke", str "black");
          ("stroke-width", toString 2) ]
        [];
      crosshairNode;
      scriptNode (Matrix.mk 560 0 40 0 560 40) ].

(** [{ lines: [], coordinateSystem: "math" }] *)
Definition onlyEmptyLines : Graphics.t float :=
  Graphics.mk None (Some []) None None math.

(** [{ points: [{ x: 3, y: 4, color: "" }],
       lines: [{ points: [{ x: 0, y: 0, stroke: 0 }, { x: 1, y: 2 }] }],
       coordinateSystem: "math" }] *)
Definition hairline : Line.t float :=
  Line.mk [Point.mk 0 0 None None (Some 0); pt 1 2].
Definition uncoloured : Point.t float :=
  Point.mk 3 4 (Some EmptyString) None None.
Definition falsyScene : Graphics.t float :=
  Graphics.mk (Some [uncoloured]) (Some [hairline]) None None math.

(** The tree of [falsyScene]. *)
Definition falsyDocument : Node float :=
  canvas
    [ Element "g" []
        [ Element "circle"
            [ ("cx", toString 530); ("cy", toString 600); ("r", str "3");
              ("fill", str "black") ]
            [] ];
      Element "polyline"
        [ ("points",
           [ NumberToString 110; Chars ","; NumberToString 40; Chars " ";
             NumberToString 250; Chars ","; NumberToString 320 ]);
          ("fill", str "none");
          ("stroke", str "black");
          ("stroke-width", toString 1) ]
        [];
      crosshairNode;
      scriptNode (Matrix.mk 140 0 110 0 140 40) ].

(** The tree of [singlePoint math]. *)
Definition singlePointDocument : Node float :=
  canvas
    [ Element "g" []
        [ Element "circle"
            [ ("cx", toString nan); ("cy", toString nan); ("r", str "3");
              ("fill", str "black") ]
            [] ];
      crosshairNode;
      scriptNode (Matrix.mk nan nan nan nan nan nan) ].

(** The rect of [square screen], and the tree. *)
Definition flippedSquareNode : Node float :=
  Element "rect"
    [ ("x", toString 40); ("y", toString 600);
      ("width", toString 560); ("height", toString 560);
      ("fill", str "none"); ("stroke", str "black") ]
    [].
Definition flippedSquareDocument : Node float :=
  canvas
    [ flippedSquareNode;
      crosshairNode;
      scriptNode (Matrix.mk 280 0 320 0 (-280) 320) ].

(** [{ points: [{ x: 0, y: 0 }, { x: 0, y: 4 }], coordinateSystem: "math" }] *)
Definition vertical : Graphics.t float :=
  Graphics.mk (Some [pt 0 0; pt 0 4]) None None None math.

(** [{ lines: [{ points: [] }], coordinateSystem: "math" }] *)
Definition pointlessLine : Graphics.t float :=
  Graphics.mk None (Some [Line.mk []]) None None math.

End Samples.

(** ** Finite scenes, in exact arithmetic *)

Definition finiteBounds (x0 x1 y0 y1 : Q) : Bounds.t xnum :=
  Bounds.mk (XFin x0) (XFin x1) (XFin y0) (XFin y1).

(** The point has the finite coordinates [(u, v)]. *)
Definition finiteXY (p : Point.t xnum) (u v : Q) : Prop :=
  Point.x p = XFin u /\ Point.y p = XFin v.

Definition finitePoint (p : Point.t xnum) : Prop :=
  exists u v, finiteXY p u v.

(** The point is finite and lies in the box [x0, x1] x [y0, y1]. *)
Definition within (x0 x1 y0 y1 : Q) (p : Point.t xnum) : Prop :=
  exists u v, finiteXY p u v /\ (x0 <= u <= x1)%Q /\ (y0 <= v <= y1)%Q.

(** ** Further notions and scenes *)

(** The matrix whose six coefficients are NaN. *)
Definition nanMatrix : Matrix.t float :=
  Matrix.mk PrimFloat.nan PrimFloat.nan PrimFloat.nan
            PrimFloat.nan PrimFloat.nan PrimFloat.nan.

(** The number is a zero or a finite number, on the specification side. *)
Definition SFfinite (s : spec_float) : bool :=
  match s with
  | S754_zero _ | S754_finite _ _ _ => true
  | _ => false
  end.

(** [q] has the coordinates of [p]. *)
Definition sameXY (p q : Point.t float) : Prop :=
  Point.x q = Point.x p /\ Point.y q = Point.y p.

(** Both horizontal (vertical) bounds are NaN. *)
Definition nanX (b : Bounds.t float) : Prop :=
  Bounds.minX b = PrimFloat.nan /\ Bounds.maxX b = PrimFloat.nan.
Definition nanY (b : Bounds.t float) : Prop :=
  Bounds.minY b = PrimFloat.nan /\ Bounds.maxY b = PrimFloat.nan.

(** [{ x: u, y: v }] with finite coordinates, in exact arithmetic. *)
Definition exactPoint (u v : Q) : Point.t xnum :=
  Point.mk (XFin u) (XFin v) None None None.

(** Some point of the list has the horizontal (vertical) coordinate [q]. *)
Definition hitX (q : Q) (ps : list (Point.t xnum)) : Prop :=
  Exists (fun p => exists u v, finiteXY p u v /\ (u == q)%Q) ps.
Definition hitY (q : Q) (ps : list (Point.t xnum)) : Prop :=
  Exists (fun p => exists u v, finiteXY p u v /\ (v == q)%Q) ps.

Module Gallery.
Local Open Scope string_scope.
Local Open Scope list_scope.

(** [{ points: [{ x: 1, y: 1, color: "red", label: "A" }, { x: 0, y: 0 }],
       lines: [{ points: [{ x: 0, y: 0 }, { x: 6, y: 2 }] }],
       rects: [{ center: { x: 2, y: 1 }, width: 2, height: 2 }],
       circles: [{ center: { x: 5, y: 1 }, radius: 1 }],
       coordinateSystem: "math" }] *)
Definition labelled : Point.t float :=
  Point.mk 1%float 1%float (Some "red") (Some "A") None.
Definition box : Rect.t float :=
  Rect.mk (Samples.pt 2 1) 2%float 2%float None None.
Definition disc : Circle.t float :=
  Circle.mk (Samples.pt 5 1) 1%float None None.
Definition full : Graphics.t float :=
  Graphics.mk (Some [labelled; Samples.pt 0 0])
    (Some [Line.mk [Samples.pt 0 0; Samples.pt 6 2]])
    (Some [box]) (Some [disc]) math.

(** The tree of [full], computed. *)
Definition fullDocument : Node float :=
  Eval vm_compute in
    match getSvgFromGraphicsObject full with
    | Ok doc => doc
    | TypeError => TextNode []
    end.

(** [{ points: [{ x: 2, y: 3 }, { x: 2, y: 3, label: "again" }] }]: two
    points at one place. *)
Definition twin : Graphics.t float :=
  Graphics.mk
    (Some [Samples.pt 2 3;
           Point.mk 2%float 3%float None (Some "again") None])
    None None None screen.

(** [{ points: [{ x: 0, y: 0 }, { x: NaN, y: 1 }] }] *)
Definition poisoned : Graphics.t float :=
  Graphics.mk (Some [Samples.pt 0 0; Samples.pt PrimFloat.nan 1])
    None None None math.

(** The scene [full], in exact arithmetic and under either coordinate
    system; its bounds are [0, 6] x [0, 2]. *)
Definition exactBox : Rect.t xnum :=
  Rect.mk (exactPoint 2 1) (XFin 2) (XFin 2) None None.
Definition exactDisc : Circle.t xnum :=
  Circle.mk (exactPoint 5 1) (XFin 1) None None.
Definition exactFull (cs : CoordinateSystem) : Graphics.t xnum :=
  Graphics.mk (Some [exactPoint 1 1; exactPoint 0 0])
    (Some [Line.mk [exactPoint 0 0; exactPoint 6 2]])
    (Some [exactBox]) (Some [exactDisc]) cs.

End Gallery.

(** * Properties *)

Local Open Scope string_scope.
Local Open Scope list_scope.

(** ** The shape of the document *)

Section Assembly.
Context {num : Type} `{Number num}.
Local Open Scope string_scope.
Local Open Scope list_scope.

Lemma mapM_nth_error {A B : Type} (f : A -> result B) (l : list A) :
  forall vs i u,
    mapM f l = Ok vs ->
    nth_error l i = Some u ->
    exists v, f u = Ok v /\ nth_error vs i = Some v.
Proof.
  induction l as [|u0 l IH]; intros vs i u Hm Hn.
  - destruct i; discriminate.
  - simpl in Hm.
    destruct (f u0) as [v0|] eqn:Hf; [|discriminate].
    destruct (mapM f l) as [vs0|] eqn:Hrest; [|discriminate].
    injection Hm as <-.
    destruct i as [|i]; simpl in Hn |- *.
    + injection Hn as <-. exists v0. split; [assumption|reflexivity].
    + apply (IH vs0 i u eq_refl Hn).
Qed.

Lemma mapM_throws {A B : Type} (f : A -> result B) (l : list A) :
  forall u, In u l -> f u = TypeError -> mapM f l = TypeError.
Proof.
  induction l as [|u0 l IH]; intros u Hin Hf; [contradiction|].
  simpl. destruct Hin as [->|Hin].
  - rewrite Hf. reflexivity.
  - destruct (f u0); [|reflexivity].
    rewrite (IH u Hin Hf). reflexivity.
Qed.

(** The children of the root, in paint order: points, lines, rects,
    circles, the overlay and the script. *)
Lemma svg_children (graphics : Graphics.t num) (doc : Node num) :
  getSvgFromGraphicsObject graphics = Ok doc ->
  exists polylines,
    mapM (polylineNode (sceneMatrix graphics))
         (array_or (Graphics.lines graphics)) = Ok polylines /\
    children doc =
      map (pointNode (sceneMatrix graphics))
          (array_or (Graphics.points graphics))
      ++ polylines
      ++ map (rectNode (sceneMatrix graphics))
           (array_or (Graphics.rects graphics))
      ++ map (circleNode (sceneMatrix graphics))
           (array_or (Graphics.circles graphics))
      ++ [ crosshairNode; scriptNode (sceneMatrix graphics) ].
Proof.
  unfold getSvgFromGraphicsObject. cbv zeta.
  destruct (mapM _ _) as [polylines|]; [|discriminate].
  intros [= <-]. exists polylines. split; reflexivity.
Qed.

(** The node of the [i]-th point is the [i]-th child. *)
Lemma svg_point_child (graphics : Graphics.t num) (doc : Node num) i point :
  getSvgFromGraphicsObject graphics = Ok doc ->
  nth_error (array_or (Graphics.points graphics)) i = Some point ->
  nth_error (children doc) i = Some (pointNode (sceneMatrix graphics) point).
Proof.
  intros Hdoc Hi.
  destruct (svg_children _ Hdoc) as (polylines & _ & ->).
  rewrite nth_error_app1.
  - rewrite nth_error_map, Hi. reflexivity.
  - rewrite length_map. apply nth_error_Some. congruence.
Qed.

(** The polyline of the [i]-th line comes after the nodes of the points. *)
Lemma svg_line_child (graphics : Graphics.t num) (doc : Node num) i line :
  getSvgFromGraphicsObject graphics = Ok doc ->
  nth_error (array_or (Graphics.lines graphics)) i = Some line ->
  exists node,
    polylineNode (sceneMatrix graphics) line = Ok node /\
    nth_error (children doc)
      (List.length (array_or (Graphics.points graphics)) + i) = Some node.
Proof.
  intros Hdoc Hi.
  destruct (svg_children _ Hdoc) as (polylines & Hm & ->).
  destruct (mapM_nth_error _ _ _ Hm Hi) as (node & Hnode & Hnth).
  exists node. split; [assumption|].
  rewrite nth_error_app2 by (rewrite length_map; lia).
  rewrite length_map.
  replace (_ + i - _)%nat with i by lia.
  rewrite nth_error_app1; [assumption|].
  apply nth_error_Some. congruence.
Qed.

Lemma polylineNode_Ok (matrix : Matrix.t num) (line : Line.t num) node :
  polylineNode matrix line = Ok node ->
  exists first,
    hd_error (Line.points line) = Some first /\
    nodeName node = Some "polyline" /\
    attribute "stroke-width" node =
      Some (toString (number_or (Point.stroke first) (lit 1))).
Proof.
  unfold polylineNode.
  destruct (Line.points line) as [|first rest]; [discriminate|].
  intros [= <-]. exists first. repeat split.
Qed.

(** A line without points makes the whole call throw. *)
Lemma pointless_line_throws (graphics : Graphics.t num) :
  In (Line.mk []) (array_or (Graphics.lines graphics)) ->
  getSvgFromGraphicsObject graphics = TypeError.
Proof.
  intros Hin. unfold getSvgFromGraphicsObject. cbv zeta.
  rewrite (mapM_throws _ _ _ Hin); reflexivity.
Qed.

End Assembly.

(** ** Empty scenes *)

Section EmptyScene.
Context {num : Type} `{Number num}.
Local Open Scope string_scope.
Local Open Scope list_scope.

Lemma flat_map_nil_inv {A B : Type} (f : A -> list B) (l : list A) :
  (forall u, In u l -> f u <> []) -> flat_map f l = [] -> l = [].
Proof.
  intros Hne Hnil. destruct l as [|u l]; [reflexivity|].
  simpl in Hnil. apply app_eq_nil in Hnil as [Hu _].
  exfalso. apply (Hne u); [left; reflexivity|assumption].
Qed.

(** With lines of at least one point each (the data model's lines), the
    point set of [getBounds] is empty only if the four collections are. *)
Lemma boundsPoints_nil (graphics : Graphics.t num) :
  (forall line, In line (array_or (Graphics.lines graphics)) ->
                Line.points line <> []) ->
  boundsPoints graphics = [] ->
  array_or (Graphics.points graphics) = [] /\
  array_or (Graphics.lines graphics) = [] /\
  array_or (Graphics.rects graphics) = [] /\
  array_or (Graphics.circles graphics) = [].
Proof.
  intros Hlines Hnil. unfold boundsPoints in Hnil.
  apply app_eq_nil in Hnil as [Hp Hnil].
  apply app_eq_nil in Hnil as [Hl Hnil].
  apply app_eq_nil in Hnil as [Hr Hc].
  repeat split.
  - assumption.
  - apply (flat_map_nil_inv _ _ Hlines Hl).
  - apply (flat_map_nil_inv rectCorners); [|assumption].
    intros rect _. discriminate.
  - apply (flat_map_nil_inv circleExtremes); [|assumption].
    intros circle _. discriminate.
Qed.

(** C7.  A scene whose combined point set is empty (its lines, if any,
    having at least one point each, as the data model has them: so all four
    collections are missing or empty) does not throw; its bounds are the
    fallback box {-1, 1, -1, 1}; and the overlay and the script are the only
    children of the root. *)
Theorem C7_empty_scene_fallback (graphics : Graphics.t num) :
  boundsPoints graphics = [] ->
  (forall line, In line (array_or (Graphics.lines graphics)) ->
                Line.points line <> []) ->
  getBounds graphics = fallbackBounds /\
  exists doc,
    getSvgFromGraphicsObject graphics = Ok doc /\
    nodeName doc = Some "svg" /\
    children doc =
      [ crosshairNode;
        scriptNode
          (getProjectionMatrix fallbackBounds
             (Graphics.coordinateSystem graphics)) ].
Proof.
  intros Hnil Hlines.
  assert (Hb : getBounds graphics = fallbackBounds)
    by (unfold getBounds; rewrite Hnil; reflexivity).
  split; [assumption|].
  destruct (boundsPoints_nil _ Hlines Hnil) as (Hp & Hl & Hr & Hc).
  unfold getSvgFromGraphicsObject, sceneMatrix. cbv zeta.
  rewrite Hb, Hp, Hl, Hr, Hc. simpl.
  eexists. repeat split.
Qed.

End EmptyScene.

(** The scene with only an empty [lines] array. *)
Lemma C7_empty_scene_fallback_witness :
  getBounds Samples.onlyEmptyLines
  = Bounds.mk (-1)%float 1%float (-1)%float 1%float /\
  exists doc,
    getSvgFromGraphicsObject Samples.onlyEmptyLines = Ok doc /\
    nodeName doc = Some "svg"%string /\
    children doc =
      [ crosshairNode;
        scriptNode (getProjectionMatrix fallbackBounds math) ].
Proof.
  change (Bounds.mk (-1)%float 1%float (-1)%float 1%float)
    with (@fallbackBounds float _).
  apply (C7_empty_scene_fallback Samples.onlyEmptyLines).
  - reflexivity.
  - simpl. intros line [].
Defined.

(** ** Stroke widths *)

Section StrokeWidth.
Context {num : Type} `{Number num}.
Local Open Scope string_scope.
Local Open Scope list_scope.

(** C3, as amended.  The polyline of every line carries as stroke-width the
    line's resolved stroke width itself (the first point's stroke, or 1 when
    that is absent or falsy): the number is not multiplied by the scale
    factor of the projection. *)
Theorem C3_stroke_width_is_resolved_stroke
    (graphics : Graphics.t num) (doc : Node num) i line :
  getSvgFromGraphicsObject graphics = Ok doc ->
  nth_error (array_or (Graphics.lines graphics)) i = Some line ->
  exists first node,
    hd_error (Line.points line) = Some first /\
    nth_error (children doc)
      (List.length (array_or (Graphics.points graphics)) + i) = Some node /\
    nodeName node = Some "polyline" /\
    numberOf (attribute "stroke-width" node)
    = Some (number_or (Point.stroke first) (lit 1)).
Proof.
  intros Hdoc Hi.
  destruct (svg_line_child _ _ Hdoc Hi) as (node & Hnode & Hnth).
  destruct (polylineNode_Ok _ _ Hnode) as (first & Hfirst & Hname & Hattr).
  exists first, node. rewrite Hattr. repeat split; assumption.
Qed.

End StrokeWidth.

(** The line of stroke 2 in a scene of scale factor 560: the attribute is
    the decimal form of 2. *)
Lemma C3_stroke_width_is_resolved_stroke_witness :
  exists first node,
    hd_error (Line.points Samples.thickLine) = Some first /\
    nth_error (children Samples.strokedDocument)
      (List.length (array_or (Graphics.points Samples.stroked)) + 0)
    = Some node /\
    nodeName node = Some "polyline" /\
    numberOf (attribute "stroke-width" node)
    = Some (number_or (Point.stroke first) (lit 1)).
Proof.
  apply (C3_stroke_width_is_resolved_stroke Samples.stroked).
  - vm_compute. reflexivity.
  - reflexivity.
Defined.

(** C3, as stated, fails: on the line of stroke 2 in a scene whose scale
    factor is 560, the stroke-width is not the decimal form of
    2 * 560 = 1120. *)
Lemma C3_stroke_width_not_scaled :
  ~ (forall doc node first,
       getSvgFromGraphicsObject Samples.stroked = Ok doc ->
       nth_error (children doc) 0 = Some node ->
       hd_error (Line.points Samples.thickLine) = Some first ->
       numberOf (attribute "stroke-width" node)
       = Some (PrimFloat.mul (number_or (Point.stroke first) (lit 1))
                 (scale_factor (getBounds Samples.stroked)))).
Proof.
  intros Hclaim.
  destruct (getSvgFromGraphicsObject Samples.stroked) as [doc|] eqn:Hdoc;
    [|vm_compute in Hdoc; discriminate].
  specialize (Hclaim doc).
  vm_compute in Hdoc. injection Hdoc as <-.
  specialize (Hclaim _ _ eq_refl eq_refl eq_refl).
  apply (f_equal (fun o => match o with
                          | Some u => PrimFloat.eqb 2 u
                          | None => true
                          end)) in Hclaim.
  vm_compute in Hclaim. discriminate.
Qed.

(** ** Falsy values at the interface *)

(** C10.  Presence checks are truthiness checks: a line whose first point
    has stroke 0 gets the default stroke-width, the decimal form of 1, and a
    point whose color is the empty string gets the fill black. *)
Theorem C10_falsy_values_take_the_default
    (graphics : Graphics.t float) (doc : Node float) :
  getSvgFromGraphicsObject graphics = Ok doc ->
  (forall i line first,
     nth_error (array_or (Graphics.lines graphics)) i = Some line ->
     hd_error (Line.points line) = Some first ->
     Point.stroke first = Some 0%float ->
     exists node,
       nth_error (children doc)
         (List.length (array_or (Graphics.points graphics)) + i)
       = Some node /\
       nodeName node = Some "polyline" /\
       attribute "stroke-width" node = Some (toString 1%float)) /\
  (forall i point,
     nth_error (array_or (Graphics.points graphics)) i = Some point ->
     Point.color point = Some "" ->
     exists circle rest,
       nth_error (children doc) i = Some (Element "g" [] (circle :: rest)) /\
       nodeName circle = Some "circle" /\
       attribute "fill" circle = Some (str "black")).
Proof.
  intros Hdoc. split.
  - intros i line first Hi Hfirst Hstroke.
    destruct (svg_line_child _ _ Hdoc Hi) as (node & Hnode & Hnth).
    destruct (polylineNode_Ok _ _ Hnode) as (first' & Hfirst' & Hname & Hattr).
    exists node. rewrite Hfirst in Hfirst'. injection Hfirst' as <-.
    rewrite Hstroke in Hattr. repeat split; assumption.
  - intros i point Hi Hcolor.
    rewrite (svg_point_child _ _ Hdoc Hi).
    unfold pointNode. cbv zeta. rewrite Hcolor.
    eexists _, _. repeat split.
Qed.

(** A scene with a line of stroke 0 and a point of color "". *)
Lemma C10_falsy_values_take_the_default_witness :
  (exists node,
     nth_error (children Samples.falsyDocument) 1 = Some node /\
     nodeName node = Some "polyline" /\
     attribute "stroke-width" node = Some (toString 1%float)) /\
  (exists circle rest,
     nth_error (children Samples.falsyDocument) 0
     = Some (Element "g" [] (circle :: rest)) /\
     nodeName circle = Some "circle" /\
     attribute "fill" circle = Some (str "black")).
Proof.
  assert (Hdoc : getSvgFromGraphicsObject Samples.falsyScene
                 = Ok Samples.falsyDocument) by (vm_compute; reflexivity).
  destruct (C10_falsy_values_take_the_default Samples.falsyScene Hdoc)
    as [Hline Hpoint].
  split.
  - apply (Hline 0%nat Samples.hairline
             (Point.mk 0%float 0%float None None (Some 0%float)));
      reflexivity.
  - apply (Hpoint 0%nat Samples.uncoloured); reflexivity.
Defined.

(** ** The pipeline on the sample scenes, in IEEE arithmetic *)

Section Evaluation.
Local Open Scope float_scope.
Import Samples.

(** A scene with one zero extent: [Math.min] keeps the finite ratio, and
    the projection is finite. *)
Lemma vertical_scene_is_finite :
  scale_factor (getBounds vertical) = 140 /\
  sceneMatrix vertical = Matrix.mk 140 0 320 0 140 40 /\
  projectPoint (pt 0 4) (sceneMatrix vertical) = pt 320 600.
Proof. vm_compute. repeat split. Qed.

(** C2, on the scene of the single point (0, 0).  The width and the height
    of its bounds are both 0; no minimum extent is put in their place; the
    scale factor is Infinity, the matrix is NaN throughout, and the circle
    of the point carries the decimal form of NaN as cx and as cy. *)
Theorem C2_coincident_points_render_NaN :
  getBounds (singlePoint math) = Bounds.mk 0 0 0 0 /\
  scale_factor (getBounds (singlePoint math)) = infinity /\
  sceneMatrix (singlePoint math) = Matrix.mk nan nan nan nan nan nan /\
  getSvgFromGraphicsObject (singlePoint math) = Ok singlePointDocument /\
  (exists circle,
     nth_error (children singlePointDocument) 0
     = Some (Element "g" [] [circle]) /\
     numberOf (attribute "cx" circle) = Some nan /\
     numberOf (attribute "cy" circle) = Some nan).
Proof.
  repeat split; try (vm_compute; reflexivity).
  eexists. repeat split.
Qed.

(** C5, as amended.  For the scene of the single point (0, 0) in math
    coordinates the point set of [getBounds] is not empty, and the bounds
    are the box {0, 0, 0, 0} of the point, none of whose four numbers is
    that of the fallback box {-1, 1, -1, 1}. *)
Theorem C5_single_point_bounds_are_the_point :
  let bounds := getBounds (singlePoint math) in
  boundsPoints (singlePoint math) = [pt 0 0] /\
  bounds = Bounds.mk 0 0 0 0 /\
  PrimFloat.eqb (Bounds.minX bounds) (-1) = false /\
  PrimFloat.eqb (Bounds.maxX bounds) 1 = false /\
  PrimFloat.eqb (Bounds.minY bounds) (-1) = false /\
  PrimFloat.eqb (Bounds.maxY bounds) 1 = false.
Proof. vm_compute. repeat split. Qed.

(** On the fallback box {-1, 1, -1, 1}, the bounds of an empty point set,
    the scale factor is (640 - 80) / 2 = 280 and (0, 0) is projected to the
    canvas center (320, 320). *)
Lemma fallback_box_projection :
  fallbackBounds = Bounds.mk (-1) 1 (-1) 1 /\
  scale_factor (@fallbackBounds float _) = 280 /\
  projectPoint (pt 0 0) (getProjectionMatrix fallbackBounds math)
  = pt 320 320.
Proof. vm_compute. repeat split. Qed.

(** C5, as stated, fails: the bounds of the single point are not the
    fallback box, and the three parts do not hold together. *)
Lemma C5_single_point_is_not_the_fallback :
  ~ (getBounds (singlePoint math) = Bounds.mk (-1) 1 (-1) 1 /\
     scale_factor (getBounds (singlePoint math)) = 280 /\
     projectPoint (pt 0 0) (sceneMatrix (singlePoint math)) = pt 320 320).
Proof.
  intros [Hbounds _].
  apply (f_equal (fun bounds => PrimFloat.eqb (Bounds.maxX bounds) 1))
    in Hbounds.
  vm_compute in Hbounds. discriminate.
Qed.

(** C6, on the scene of the single point (0, 0): the corners of its
    bounding box are projected to (NaN, NaN), which is on neither side of
    40 or of 600. *)
Theorem C6_coincident_points_break_the_fit :
  let bounds := getBounds (singlePoint math) in
  let corner :=
    projectPoint (pt (Bounds.minX bounds) (Bounds.minY bounds))
      (sceneMatrix (singlePoint math)) in
  corner = pt nan nan /\
  PrimFloat.leb 40 (Point.x corner) = false /\
  PrimFloat.leb (Point.x corner) 600 = false /\
  PrimFloat.leb 40 (Point.y corner) = false /\
  PrimFloat.leb (Point.y corner) 600 = false.
Proof. vm_compute. repeat split. Qed.

(** C8, on the scene of the single point (0, 0): under both coordinate
    systems the point is projected to (NaN, NaN); the two horizontal
    coordinates are not equal as numbers and the vertical ones do not add
    up to 640. *)
Theorem C8_coincident_points_break_the_mirror :
  let inMath := projectPoint (pt 0 0) (sceneMatrix (singlePoint math)) in
  let inScreen := projectPoint (pt 0 0) (sceneMatrix (singlePoint screen)) in
  inMath = pt nan nan /\
  inScreen = pt nan nan /\
  PrimFloat.eqb (Point.x inScreen) (Point.x inMath) = false /\
  PrimFloat.eqb (Point.y inScreen + Point.y inMath) 640 = false.
Proof. vm_compute. repeat split. Qed.

(** C9, on the bounds {0, 0, 0, 0} of the single point (0, 0): under both
    coordinate systems the coefficients b and c are NaN, not 0. *)
Theorem C9_degenerate_bounds_give_NaN_shear (cs : CoordinateSystem) :
  let matrix := getProjectionMatrix (Bounds.mk 0 0 0 0) cs in
  getBounds (singlePoint cs) = Bounds.mk 0 0 0 0 /\
  Matrix.b matrix = nan /\
  Matrix.c matrix = nan /\
  PrimFloat.eqb (Matrix.b matrix) 0 = false /\
  PrimFloat.eqb (Matrix.c matrix) 0 = false.
Proof. destruct cs; vm_compute; repeat split. Qed.

(** C1, on the scene of the points (0, 0) and (1, 1): under both
    coordinate systems the script maps the projection of (1, 1) to
    (1, -1); the vertical coordinate comes back negated, 2 away from the
    original. *)
Theorem C1_script_negates_the_vertical_coordinate (cs : CoordinateSystem) :
  let matrix := sceneMatrix (diagonal cs) in
  let projected := projectPoint (pt 1 1) matrix in
  matrix = Matrix.mk 560 0 40 0
             (match cs with math => 560 | screen => -560 end)
             (match cs with math => 40 | screen => 600 end) /\
  projected = pt 600 (match cs with math => 600 | screen => 40 end) /\
  realPoint matrix (Point.x projected) (Point.y projected) = (1, -1) /\
  PrimFloat.abs (snd (realPoint matrix (Point.x projected) (Point.y projected))
                 - 1) = 2.
Proof. destruct cs; vm_compute; repeat split. Qed.

(** C4, on the square of side 2 centered at (0, 0), in screen coordinates:
    the center is projected to (320, 320) and the rendered height is 560,
    but the y attribute is 600, so the rect spans 600 to 1160 and y plus
    half the height is 880, not 320. *)
Theorem C4_screen_rect_is_not_centered :
  let matrix := sceneMatrix (square screen) in
  matrix = Matrix.mk 280 0 320 0 (-280) 320 /\
  projectPoint (pt 0 0) matrix = pt 320 320 /\
  getSvgFromGraphicsObject (square screen) = Ok flippedSquareDocument /\
  nth_error (children flippedSquareDocument) 0 = Some flippedSquareNode /\
  numberOf (attribute "y" flippedSquareNode) = Some 600 /\
  numberOf (attribute "height" flippedSquareNode) = Some 560 /\
  600 + 560 / 2 = 880.
Proof. vm_compute. repeat split. Qed.

(** In math coordinates the same square is centered: y = 40, and
    40 + 560 / 2 = 320. *)
Lemma math_rect_is_centered :
  rectNode (sceneMatrix (square math)) (Rect.mk (pt 0 0) 2 2 None None)
  = Element "rect"
      [ ("x", toString 40); ("y", toString 40);
        ("width", toString 560); ("height", toString 560);
        ("fill", str "none"); ("stroke", str "black") ]
      [] /\
  40 + 560 / 2 = 320.
Proof. vm_compute. repeat split. Qed.

(** The scene of one line without points throws. *)
Lemma pointlessLine_throws :
  getSvgFromGraphicsObject pointlessLine = TypeError.
Proof. reflexivity. Qed.

End Evaluation.

(** ** The bounds in exact arithmetic

    [getBounds] only compares and selects, so what it returns does not
    depend on rounding. *)

Unset Implicit Arguments.

Section Exact.
Local Open Scope Q_scope.

Lemma xmin_fin a b :
  exists m,
    xmin (XFin a) (XFin b) = XFin m /\
    m <= a /\ m <= b /\ (m == a \/ m == b).
Proof.
  unfold xmin, xltb. destruct (Qle_bool a b) eqn:E; simpl.
  - apply Qle_bool_iff in E. exists a. repeat split; lra.
  - assert (b < a).
    { apply Qnot_le_lt. intros Hle. apply Qle_bool_iff in Hle. congruence. }
    exists b. repeat split; lra.
Qed.

Lemma xmax_fin a b :
  exists m, xmax (XFin a) (XFin b) = XFin m /\ a <= m /\ b <= m.
Proof.
  unfold xmax, xltb. destruct (Qle_bool b a) eqn:E; simpl.
  - apply Qle_bool_iff in E. exists a. repeat split; lra.
  - assert (a < b).
    { apply Qnot_le_lt. intros Hle. apply Qle_bool_iff in Hle. congruence. }
    exists b. repeat split; lra.
Qed.

Lemma within_weaken x0 x1 y0 y1 x0' x1' y0' y1' p :
  x0' <= x0 -> x1 <= x1' -> y0' <= y0 -> y1 <= y1' ->
  within x0 x1 y0 y1 p -> within x0' x1' y0' y1' p.
Proof.
  intros ? ? ? ? (u & v & Hp & Hu & Hv).
  exists u, v. repeat split; try apply Hp; lra.
Qed.

Lemma extend_fin x0 x1 y0 y1 p :
  x0 <= x1 -> y0 <= y1 -> finitePoint p ->
  exists x0' x1' y0' y1',
    extend (finiteBounds x0 x1 y0 y1) p = finiteBounds x0' x1' y0' y1' /\
    x0' <= x0 /\ x1 <= x1' /\ y0' <= y0 /\ y1 <= y1' /\
    within x0' x1' y0' y1' p.
Proof.
  intros Hx Hy (u & v & Hu & Hv).
  unfold extend, finiteBounds.
  cbn [Bounds.minX Bounds.maxX Bounds.minY Bounds.maxY Math_min Math_max
       xnum_Number].
  rewrite Hu, Hv.
  destruct (xmin_fin x0 u) as (x0' & -> & ? & ? & _).
  destruct (xmax_fin x1 u) as (x1' & -> & ? & ?).
  destruct (xmin_fin y0 v) as (y0' & -> & ? & ? & _).
  destruct (xmax_fin y1 v) as (y1' & -> & ? & ?).
  exists x0', x1', y0', y1'. split; [reflexivity|].
  repeat split; try assumption.
  exists u, v. repeat split; assumption.
Qed.

Lemma fold_extend_fin ps :
  Forall finitePoint ps ->
  forall x0 x1 y0 y1, x0 <= x1 -> y0 <= y1 ->
  exists x0' x1' y0' y1',
    fold_left extend ps (finiteBounds x0 x1 y0 y1)
    = finiteBounds x0' x1' y0' y1' /\
    x0' <= x0 /\ x1 <= x1' /\ y0' <= y0 /\ y1 <= y1' /\
    Forall (within x0' x1' y0' y1') ps.
Proof.
  induction 1 as [|p ps Hp Hps IH]; intros x0 x1 y0 y1 Hx Hy.
  - exists x0, x1, y0, y1. repeat split; try lra. constructor.
  - destruct (extend_fin x0 x1 y0 y1 p Hx Hy Hp)
      as (a0 & a1 & b0 & b1 & Hext & ? & ? & ? & ? & Hin).
    destruct (IH a0 a1 b0 b1)
      as (x0' & x1' & y0' & y1' & Hfold & ? & ? & ? & ? & Hall);
      [lra|lra|].
    exists x0', x1', y0', y1'. simpl. rewrite Hext.
    split; [assumption|]. repeat split; try lra.
    constructor; [|assumption].
    apply (within_weaken a0 a1 b0 b1); assumption.
Qed.

(** The bounds of a non-empty finite point set are finite, ordered and
    contain every point of the set. *)
Lemma getBounds_fin (graphics : Graphics.t xnum) :
  boundsPoints graphics <> [] ->
  Forall finitePoint (boundsPoints graphics) ->
  exists x0 x1 y0 y1,
    getBounds graphics = finiteBounds x0 x1 y0 y1 /\ x0 <= x1 /\ y0 <= y1 /\
    Forall (within x0 x1 y0 y1) (boundsPoints graphics).
Proof.
  intros Hne Hfin. unfold getBounds.
  destruct (boundsPoints graphics) as [|p ps]; [contradiction|].
  inversion Hfin as [|? ? Hp Hps]; subst.
  destruct Hp as (u & v & Hu & Hv).
  assert (Hfirst :
    extend (Bounds.mk Infinity (neg Infinity) Infinity (neg Infinity)) p
    = finiteBounds u u v v).
  { unfold extend, finiteBounds. cbn. rewrite Hu, Hv. reflexivity. }
  cbn [fold_left]. rewrite Hfirst.
  destruct (fold_extend_fin ps Hps u u v v)
    as (x0 & x1 & y0 & y1 & -> & ? & ? & ? & ? & Hall);
    [lra|lra|].
  exists x0, x1, y0, y1. split; [reflexivity|]. repeat split; try lra.
  constructor; [|assumption].
  exists u, v. repeat split; try assumption; lra.
Qed.

End Exact.

(** ** IEEE arithmetic, for every input

    Facts on binary64 that need no rounding analysis, from the
    specification of the primitive operations. *)

Section IEEE.
Local Open Scope float_scope.

Lemma mul_nan_l v : nan * v = nan.
Proof. apply Prim2SF_inj. rewrite mul_spec. reflexivity. Qed.

Lemma mul_nan_r u : u * nan = nan.
Proof.
  apply Prim2SF_inj. rewrite mul_spec.
  change (Prim2SF nan) with S754_nan. destruct (Prim2SF u); reflexivity.
Qed.

Lemma add_nan_l v : nan + v = nan.
Proof. apply Prim2SF_inj. rewrite add_spec. reflexivity. Qed.

Lemma add_nan_r u : u + nan = nan.
Proof.
  apply Prim2SF_inj. rewrite add_spec.
  change (Prim2SF nan) with S754_nan. destruct (Prim2SF u); reflexivity.
Qed.

Lemma SFcompare_refl s : SFcompare s s = Some Eq \/ SFcompare s s = None.
Proof.
  destruct s as [[]|[]| |[] m e]; simpl; auto;
    rewrite Z.compare_refl, Pos.compare_cont_refl; auto.
Qed.

Lemma ltb_irrefl u : (u <? u) = false.
Proof.
  rewrite ltb_spec. unfold SFltb.
  destruct (SFcompare_refl (Prim2SF u)) as [-> | ->]; reflexivity.
Qed.

Lemma is_nan_eq u : PrimFloat.is_nan u = true -> u = nan.
Proof.
  unfold PrimFloat.is_nan. rewrite FloatAxioms.eqb_spec. unfold SFeqb. intros Hn.
  apply Prim2SF_inj. change (Prim2SF nan) with S754_nan.
  destruct (Prim2SF u) as [[]|[]| |[] m e]; try reflexivity; simpl in Hn;
    try discriminate;
    rewrite Z.compare_refl, Pos.compare_cont_refl in Hn; discriminate.
Qed.

(** A number minus itself is +0, or NaN when the number is not finite. *)
Lemma sub_diag u : u - u = 0 \/ u - u = nan.
Proof.
  assert (H : Prim2SF (u - u) = S754_zero false \/ Prim2SF (u - u) = S754_nan).
  { rewrite sub_spec. unfold SF64sub.
    destruct (Prim2SF u) as [[]|[]| |s m e]; simpl; auto.
    unfold shl_align. rewrite Z.min_id, Z.sub_diag. simpl. auto. }
  destruct H as [H|H]; [left|right]; apply Prim2SF_inj; rewrite H; reflexivity.
Qed.

Lemma float_min_same u : float_min u u = u.
Proof.
  unfold float_min. destruct (PrimFloat.is_nan u) eqn:Hn; simpl.
  - symmetry. apply is_nan_eq. assumption.
  - rewrite ltb_irrefl. destruct (get_sign u); reflexivity.
Qed.

Lemma float_max_same u : float_max u u = u.
Proof.
  unfold float_max. destruct (PrimFloat.is_nan u) eqn:Hn; simpl.
  - symmetry. apply is_nan_eq. assumption.
  - rewrite ltb_irrefl. destruct (get_sign u); reflexivity.
Qed.

Lemma float_min_infinity u : float_min infinity u = u.
Proof.
  unfold float_min. change (PrimFloat.is_nan infinity) with false. simpl.
  destruct (PrimFloat.is_nan u) eqn:Hn.
  - symmetry. apply is_nan_eq. assumption.
  - assert (H : (infinity <? u) = false).
    { rewrite ltb_spec. change (Prim2SF infinity) with (S754_infinity false).
      destruct (Prim2SF u) as [[]|[]| |[] m e]; reflexivity. }
    rewrite H. destruct (u <? infinity); reflexivity.
Qed.

Lemma float_max_neg_infinity u : float_max neg_infinity u = u.
Proof.
  unfold float_max. change (PrimFloat.is_nan neg_infinity) with false. simpl.
  destruct (PrimFloat.is_nan u) eqn:Hn.
  - symmetry. apply is_nan_eq. assumption.
  - destruct (neg_infinity <? u); [reflexivity|].
    assert (H : (u <? neg_infinity) = false).
    { rewrite ltb_spec. change (Prim2SF neg_infinity) with (S754_infinity true).
      destruct (Prim2SF u) as [[]|[]| |[] m e]; reflexivity. }
    rewrite H. reflexivity.
Qed.

(** With a scale of Infinity or NaN the composition is NaN throughout,
    whatever the translation. *)
Lemma compose_unbounded_scale (k k' tx ty : float) :
  k = infinity \/ k = nan ->
  k' = k \/ k' = PrimFloat.opp k ->
  compose (translate 320 320) [scale k k'; translate tx ty] = nanMatrix.
Proof.
  intros Hk Hk'.
  assert (H : (k = infinity /\ (k' = infinity \/ k' = neg_infinity))
              \/ (k = nan /\ k' = nan)).
  { destruct Hk as [-> | ->]; [left|right]; (split; [reflexivity|]);
      destruct Hk' as [-> | ->]; auto. }
  destruct H as [[-> [-> | ->]] | [-> ->]];
    vm_compute;
    rewrite ?mul_nan_l, ?mul_nan_r, ?add_nan_l, ?add_nan_r;
    rewrite ?add_nan_l, ?add_nan_r; reflexivity.
Qed.

Lemma matrix_of_unbounded_scale (bounds : Bounds.t float) cs :
  scale_factor bounds = infinity \/ scale_factor bounds = nan ->
  getProjectionMatrix bounds cs = nanMatrix.
Proof.
  intros Hk. unfold getProjectionMatrix. cbv zeta.
  apply compose_unbounded_scale; [assumption|].
  destruct cs; [left|right]; reflexivity.
Qed.

Lemma scale_factor_of_point_box (u v : float) :
  scale_factor (Bounds.mk u u v v) = infinity \/
  scale_factor (Bounds.mk u u v v) = nan.
Proof.
  unfold scale_factor.
  cbn [Bounds.minX Bounds.maxX Bounds.minY Bounds.maxY sub float_Number].
  destruct (sub_diag u) as [-> | ->]; destruct (sub_diag v) as [-> | ->];
    vm_compute; auto.
Qed.

Lemma fold_extend_same (p : Point.t float) ps :
  Forall (sameXY p) ps ->
  fold_left extend ps
    (Bounds.mk (Point.x p) (Point.x p) (Point.y p) (Point.y p))
  = Bounds.mk (Point.x p) (Point.x p) (Point.y p) (Point.y p).
Proof.
  induction 1 as [|q ps [Hx Hy] _ IH]; [reflexivity|].
  simpl. unfold extend at 2.
  cbn [Bounds.minX Bounds.maxX Bounds.minY Bounds.maxY Math_min Math_max
       float_Number].
  rewrite Hx, Hy, !float_min_same, !float_max_same. exact IH.
Qed.

Lemma getBounds_coincident (graphics : Graphics.t float) p ps :
  boundsPoints graphics = p :: ps ->
  Forall (sameXY p) ps ->
  getBounds graphics
  = Bounds.mk (Point.x p) (Point.x p) (Point.y p) (Point.y p).
Proof.
  intros Hpts Hsame. unfold getBounds. rewrite Hpts.
  cbn [fold_left]. unfold extend at 2.
  cbn [Bounds.minX Bounds.maxX Bounds.minY Bounds.maxY Math_min Math_max
       Infinity neg float_Number].
  change (PrimFloat.opp infinity) with neg_infinity.
  rewrite !float_min_infinity, !float_max_neg_infinity.
  apply fold_extend_same. assumption.
Qed.

Lemma projectPoint_nanMatrix (q : Point.t float) :
  Point.x (projectPoint q nanMatrix) = nan /\
  Point.y (projectPoint q nanMatrix) = nan.
Proof.
  unfold projectPoint, applyToPoint, nanMatrix.
  cbn [fst snd Point.x Point.y Matrix.a Matrix.b Matrix.c Matrix.d Matrix.e
       Matrix.f add mul float_Number].
  rewrite !mul_nan_l. split; reflexivity.
Qed.

(** Coincident points.  When every point that [getBounds] collects has the
    coordinates of the first one, whatever these are, the matrix is NaN
    throughout and every point is projected to (NaN, NaN). *)
Theorem coincident_points_project_to_NaN (graphics : Graphics.t float) p ps :
  boundsPoints graphics = p :: ps ->
  Forall (sameXY p) ps ->
  sceneMatrix graphics = nanMatrix /\
  forall q,
    Point.x (projectPoint q (sceneMatrix graphics)) = nan /\
    Point.y (projectPoint q (sceneMatrix graphics)) = nan.
Proof.
  intros Hpts Hsame.
  assert (Hm : sceneMatrix graphics = nanMatrix).
  { unfold sceneMatrix. cbv zeta. cbn [compose fold_left].
    rewrite (getBounds_coincident graphics p ps Hpts Hsame).
    apply matrix_of_unbounded_scale, scale_factor_of_point_box. }
  split; [assumption|]. intros q. rewrite Hm. apply projectPoint_nanMatrix.
Qed.

Lemma float_min_nan_r u : float_min u nan = nan.
Proof.
  unfold float_min. change (PrimFloat.is_nan nan) with true.
  rewrite orb_true_r. reflexivity.
Qed.

Lemma float_max_nan_r u : float_max u nan = nan.
Proof.
  unfold float_max. change (PrimFloat.is_nan nan) with true.
  rewrite orb_true_r. reflexivity.
Qed.

Lemma fold_extend_nanX ps : forall acc,
  nanX acc \/ Exists (fun p => Point.x p = nan) ps ->
  nanX (fold_left extend ps acc).
Proof.
  induction ps as [|q ps IH]; intros acc [Hacc|Hex].
  - assumption.
  - inversion Hex.
  - simpl. apply IH. left. destruct Hacc as [Hmin Hmax].
    split; simpl; [rewrite Hmin|rewrite Hmax]; reflexivity.
  - simpl. apply IH. inversion Hex as [? ? Hq|? ? Hrest]; subst.
    + left. split; simpl; rewrite Hq;
        [apply float_min_nan_r|apply float_max_nan_r].
    + right. assumption.
Qed.

Lemma fold_extend_nanY ps : forall acc,
  nanY acc \/ Exists (fun p => Point.y p = nan) ps ->
  nanY (fold_left extend ps acc).
Proof.
  induction ps as [|q ps IH]; intros acc [Hacc|Hex].
  - assumption.
  - inversion Hex.
  - simpl. apply IH. left. destruct Hacc as [Hmin Hmax].
    split; simpl; [rewrite Hmin|rewrite Hmax]; reflexivity.
  - simpl. apply IH. inversion Hex as [? ? Hq|? ? Hrest]; subst.
    + left. split; simpl; rewrite Hq;
        [apply float_min_nan_r|apply float_max_nan_r].
    + right. assumption.
Qed.

Lemma scale_factor_nan (b : Bounds.t float) :
  nanX b \/ nanY b -> scale_factor b = nan.
Proof.
  unfold scale_factor.
  cbn [sub div Math_min float_Number].
  intros [[-> ->]|[-> ->]].
  - reflexivity.
  - apply float_min_nan_r.
Qed.

(** One NaN.  When some point that [getBounds] collects has a NaN
    coordinate, the two bounds on that axis are NaN, the matrix is NaN
    throughout and every point of the scene is projected to (NaN, NaN). *)
Theorem NaN_coordinate_poisons_the_projection (graphics : Graphics.t float) :
  Exists (fun p => Point.x p = nan \/ Point.y p = nan)
         (boundsPoints graphics) ->
  (Exists (fun p => Point.x p = nan) (boundsPoints graphics) ->
   nanX (getBounds graphics)) /\
  (Exists (fun p => Point.y p = nan) (boundsPoints graphics) ->
   nanY (getBounds graphics)) /\
  (nanX (getBounds graphics) \/ nanY (getBounds graphics)) /\
  sceneMatrix graphics = nanMatrix /\
  forall q,
    Point.x (projectPoint q (sceneMatrix graphics)) = nan /\
    Point.y (projectPoint q (sceneMatrix graphics)) = nan.
Proof.
  intros Hex.
  assert (HX : Exists (fun p => Point.x p = nan) (boundsPoints graphics) ->
               nanX (getBounds graphics)).
  { intros Hx. unfold getBounds.
    destruct (boundsPoints graphics) as [|p ps] eqn:Hpts; [inversion Hx|].
    apply fold_extend_nanX. right. assumption. }
  assert (HY : Exists (fun p => Point.y p = nan) (boundsPoints graphics) ->
               nanY (getBounds graphics)).
  { intros Hy. unfold getBounds.
    destruct (boundsPoints graphics) as [|p ps] eqn:Hpts; [inversion Hy|].
    apply fold_extend_nanY. right. assumption. }
  assert (Hb : nanX (getBounds graphics) \/ nanY (getBounds graphics)).
  { apply Exists_exists in Hex as (p & Hin & [Hp|Hp]); [left|right].
    - apply HX, Exists_exists. exists p. split; assumption.
    - apply HY, Exists_exists. exists p. split; assumption. }
  assert (Hm : sceneMatrix graphics = nanMatrix).
  { unfold sceneMatrix. cbv zeta. cbn [compose fold_left].
    apply matrix_of_unbounded_scale. right.
    apply scale_factor_nan. assumption. }
  split; [exact HX|]. split; [exact HY|]. split; [exact Hb|].
  split; [exact Hm|].
  intros q. rewrite Hm. apply projectPoint_nanMatrix.
Qed.

Lemma zero_times_opp k :
  (float_of_Z 1 * float_of_Z 0 + float_of_Z 0 * PrimFloat.opp k
   = float_of_Z 1 * float_of_Z 0 + float_of_Z 0 * k)%float.
Proof.
  apply Prim2SF_inj. rewrite !add_spec, !mul_spec, opp_spec.
  change (Prim2SF (float_of_Z 1)) with (Prim2SF 1).
  change (Prim2SF (float_of_Z 0)) with (S754_zero false).
  destruct (Prim2SF k) as [[]|[]| |[] m e]; reflexivity.
Qed.

(** The two coordinate systems give the same horizontal coordinate, bit for
    bit (NaN for both on degenerate bounds): the flip reaches the
    coefficients c and e only through 0 * -k, and 0 + 0 * -k = 0 + 0 * k. *)
Theorem horizontal_projection_ignores_the_flip
    (bounds : Bounds.t float) (p : Point.t float) :
  Point.x (projectPoint p (getProjectionMatrix bounds screen))
  = Point.x (projectPoint p (getProjectionMatrix bounds math)).
Proof.
  unfold projectPoint, applyToPoint, getProjectionMatrix. cbv zeta.
  unfold compose, translate, scale, multiply.
  cbn [fold_left fst snd Point.x Point.y Matrix.a Matrix.b Matrix.c Matrix.d
       Matrix.e Matrix.f add sub mul div neg lit float_Number].
  rewrite zero_times_opp. reflexivity.
Qed.

(** Two points at (2, 3). *)
Lemma coincident_points_project_to_NaN_witness :
  sceneMatrix Gallery.twin = nanMatrix /\
  forall q,
    Point.x (projectPoint q (sceneMatrix Gallery.twin)) = nan /\
    Point.y (projectPoint q (sceneMatrix Gallery.twin)) = nan.
Proof.
  apply (coincident_points_project_to_NaN Gallery.twin (Samples.pt 2 3)
           [Point.mk 2 3 None (Some "again"%string) None]).
  - reflexivity.
  - repeat constructor.
Defined.

(** A scene with the point (NaN, 1): the horizontal bounds are NaN. *)
Lemma NaN_coordinate_poisons_the_projection_witness :
  nanX (getBounds Gallery.poisoned) /\
  sceneMatrix Gallery.poisoned = nanMatrix /\
  forall q,
    Point.x (projectPoint q (sceneMatrix Gallery.poisoned)) = nan /\
    Point.y (projectPoint q (sceneMatrix Gallery.poisoned)) = nan.
Proof.
  destruct (NaN_coordinate_poisons_the_projection Gallery.poisoned)
    as (HX & _ & _ & Hm & Hq).
  - apply Exists_cons_tl, Exists_cons_hd. left. reflexivity.
  - split; [|split; assumption].
    apply HX. apply Exists_cons_tl, Exists_cons_hd. reflexivity.
Defined.

Lemma SFeqb_refl_finite s m e :
  SFeqb (S754_finite s m e) (S754_finite s m e) = true.
Proof.
  unfold SFeqb. simpl. destruct s;
    rewrite Z.compare_refl, Pos.compare_cont_refl; reflexivity.
Qed.

Lemma is_finite_spec u : PrimFloat.is_finite u = SFfinite (Prim2SF u).
Proof.
  unfold PrimFloat.is_finite, PrimFloat.is_nan, PrimFloat.is_infinity.
  rewrite !FloatAxioms.eqb_spec, abs_spec.
  change (Prim2SF infinity) with (S754_infinity false).
  destruct (Prim2SF u) as [[]|[]| |s m e]; try reflexivity.
  rewrite SFeqb_refl_finite. reflexivity.
Qed.

Lemma is_zero_spec u :
  PrimFloat.is_zero u
  = match Prim2SF u with S754_zero _ => true | _ => false end.
Proof.
  unfold PrimFloat.is_zero. rewrite FloatAxioms.eqb_spec.
  change (Prim2SF zero) with (S754_zero false).
  destruct (Prim2SF u) as [[]|[]| |[] m e]; reflexivity.
Qed.

(** [1 * 0 + 0 * k] and [0 * k + 1 * 0] are +0, or NaN when [k] is not
    finite. *)
Lemma zero_entry_l k :
  Prim2SF (1 * 0 + 0 * k) = S754_zero false \/
  Prim2SF (1 * 0 + 0 * k) = S754_nan.
Proof.
  rewrite add_spec, !mul_spec.
  change (Prim2SF 0) with (S754_zero false).
  destruct (Prim2SF k) as [[]|[]| |[] m e]; simpl; auto.
Qed.

Lemma zero_entry_r k :
  Prim2SF (0 * k + 1 * 0) = S754_zero false \/
  Prim2SF (0 * k + 1 * 0) = S754_nan.
Proof.
  rewrite add_spec, !mul_spec.
  change (Prim2SF 0) with (S754_zero false).
  destruct (Prim2SF k) as [[]|[]| |[] m e]; simpl; auto.
Qed.

Lemma SFadd_nan_r s : SFadd prec emax s S754_nan = S754_nan.
Proof. destruct s; reflexivity. Qed.

Lemma SFmul_nan_r s : SFmul prec emax s S754_nan = S754_nan.
Proof. destruct s; reflexivity. Qed.

Lemma off_diagonal_c A C :
  Prim2SF C = S754_zero false \/ Prim2SF C = S754_nan ->
  PrimFloat.is_finite (A * 1 + C * 0) = true ->
  PrimFloat.is_zero (A * 0 + C * 1) = true.
Proof.
  intros HC. rewrite is_finite_spec, is_zero_spec, !add_spec, !mul_spec.
  change (Prim2SF 0) with (S754_zero false).
  change (Prim2SF 1) with (S754_finite false 4503599627370496 (-52)).
  unfold SF64add, SF64mul.
  destruct HC as [-> | ->].
  - destruct (Prim2SF A) as [[]|[]| |[] m e]; intros Hfin;
      solve [reflexivity | discriminate Hfin].
  - change (SFmul prec emax S754_nan (S754_zero false)) with S754_nan.
    rewrite SFadd_nan_r. discriminate.
Qed.

Lemma off_diagonal_b B D :
  Prim2SF B = S754_zero false \/ Prim2SF B = S754_nan ->
  PrimFloat.is_finite (B * 0 + D * 1) = true ->
  PrimFloat.is_zero (B * 1 + D * 0) = true.
Proof.
  intros HB. rewrite is_finite_spec, is_zero_spec, !add_spec, !mul_spec.
  change (Prim2SF 0) with (S754_zero false).
  change (Prim2SF 1) with (S754_finite false 4503599627370496 (-52)).
  unfold SF64add, SF64mul.
  destruct HB as [-> | ->].
  - destruct (Prim2SF D) as [[]|[]| |[] m e]; intros Hfin;
      solve [reflexivity | discriminate Hfin].
  - discriminate.
Qed.

(** On a matrix of NaN the script reads [null] for every coefficient and
    divides by zero. *)
Lemma script_on_nanMatrix x y :
  realPoint nanMatrix x y = ((x - 0) / 0, - (y - 0) / 0).
Proof. reflexivity. Qed.

(** No shear on a finite scale.  Whenever the coefficients a and d of the
    projection matrix are finite, b and c are zero (+0 or -0): products
    with the zero entries of the translations and of the scaling do not
    round, so this needs no bound on the inputs. *)
Theorem finite_scale_has_no_shear (bounds : Bounds.t float) cs :
  let matrix := getProjectionMatrix bounds cs in
  PrimFloat.is_finite (Matrix.a matrix) = true ->
  PrimFloat.is_finite (Matrix.d matrix) = true ->
  PrimFloat.is_zero (Matrix.b matrix) = true /\
  PrimFloat.is_zero (Matrix.c matrix) = true.
Proof.
  unfold getProjectionMatrix. cbv zeta.
  unfold compose, translate, scale, multiply.
  cbn [fold_left Matrix.a Matrix.b Matrix.c Matrix.d Matrix.e Matrix.f
       add sub mul div neg lit float_Number].
  change (float_of_Z 1) with 1. change (float_of_Z 0) with 0.
  intros Ha Hd. split.
  - apply off_diagonal_b; [apply zero_entry_r|exact Hd].
  - apply off_diagonal_c; [apply zero_entry_l|exact Ha].
Qed.

(** The unit square, under the flip: a = 560 and d = -560. *)
Lemma finite_scale_has_no_shear_witness :
  PrimFloat.is_zero
    (Matrix.b (getProjectionMatrix (Bounds.mk 0 1 0 1) screen)) = true /\
  PrimFloat.is_zero
    (Matrix.c (getProjectionMatrix (Bounds.mk 0 1 0 1) screen)) = true.
Proof.
  apply (finite_scale_has_no_shear (Bounds.mk 0 1 0 1) screen);
    vm_compute; reflexivity.
Defined.

End IEEE.

(** ** The document, in any arithmetic *)

Section Structure.
Context {num : Type} `{Number num}.

Lemma mapM_TypeError {A B : Type} (f : A -> result B) (l : list A) :
  mapM f l = TypeError <-> exists u, In u l /\ f u = TypeError.
Proof.
  split.
  - induction l as [|u0 l IH]; simpl; [discriminate|].
    destruct (f u0) as [v0|] eqn:Hf.
    + destruct (mapM f l) as [vs|]; [discriminate|].
      intros _. destruct (IH eq_refl) as (u & Hin & Hu).
      exists u. split; [right; assumption|assumption].
    + intros _. exists u0. split; [left; reflexivity|assumption].
  - intros (u & Hin & Hu). apply (mapM_throws f l u Hin Hu).
Qed.

Lemma mapM_length {A B : Type} (f : A -> result B) (l : list A) :
  forall vs, mapM f l = Ok vs -> List.length vs = List.length l.
Proof.
  induction l as [|u0 l IH]; simpl; intros vs Hm.
  - injection Hm as <-. reflexivity.
  - destruct (f u0) as [v0|]; [|discriminate].
    destruct (mapM f l) as [vs0|]; [|discriminate].
    injection Hm as <-. simpl. rewrite (IH vs0 eq_refl). reflexivity.
Qed.

(** The call throws exactly when some line has no points. *)
Theorem throws_iff_some_line_has_no_points (graphics : Graphics.t num) :
  getSvgFromGraphicsObject graphics = TypeError <->
  exists line,
    In line (array_or (Graphics.lines graphics)) /\ Line.points line = [].
Proof.
  unfold getSvgFromGraphicsObject. cbv zeta.
  split.
  - destruct (mapM _ _) as [polylines|] eqn:Hm; [discriminate|].
    intros _. apply mapM_TypeError in Hm as (line & Hin & Hline).
    exists line. split; [assumption|].
    unfold polylineNode in Hline.
    destruct (Line.points line); [reflexivity|discriminate].
  - intros (line & Hin & Hpts).
    assert (Hm : mapM (polylineNode (sceneMatrix graphics))
                   (array_or (Graphics.lines graphics)) = TypeError).
    { apply mapM_TypeError. exists line. split; [assumption|].
      unfold polylineNode. rewrite Hpts. reflexivity. }
    rewrite Hm. reflexivity.
Qed.

(** Paint order.  The root has one child per point, line, rect and circle,
    then the overlay and the script: rect [i] is child
    [points + lines + i], circle [i] is child [points + lines + rects + i],
    and the overlay and the script are the last two. *)
Theorem paint_order (graphics : Graphics.t num) (doc : Node num) :
  getSvgFromGraphicsObject graphics = Ok doc ->
  let np := List.length (array_or (Graphics.points graphics)) in
  let nl := List.length (array_or (Graphics.lines graphics)) in
  let nr := List.length (array_or (Graphics.rects graphics)) in
  let nc := List.length (array_or (Graphics.circles graphics)) in
  List.length (children doc) = (np + nl + nr + nc + 2)%nat /\
  (forall i rect,
     nth_error (array_or (Graphics.rects graphics)) i = Some rect ->
     nth_error (children doc) (np + nl + i)
     = Some (rectNode (sceneMatrix graphics) rect)) /\
  (forall i circle,
     nth_error (array_or (Graphics.circles graphics)) i = Some circle ->
     nth_error (children doc) (np + nl + nr + i)
     = Some (circleNode (sceneMatrix graphics) circle)) /\
  nth_error (children doc) (np + nl + nr + nc) = Some crosshairNode /\
  nth_error (children doc) (np + nl + nr + nc + 1)
  = Some (scriptNode (sceneMatrix graphics)).
Proof.
  intros Hdoc np nl nr nc.
  destruct (svg_children graphics Hdoc) as (polylines & Hm & ->).
  pose proof (mapM_length _ _ _ Hm) as Hlen. fold nl in Hlen.
  set (P := map (pointNode _) _).
  set (R := map (rectNode _) _).
  set (C := map (circleNode _) _).
  assert (HP : List.length P = np) by (unfold P; apply length_map).
  assert (HR : List.length R = nr) by (unfold R; apply length_map).
  assert (HC : List.length C = nc) by (unfold C; apply length_map).
  repeat split.
  - rewrite !length_app. simpl. lia.
  - intros i rect Hi.
    rewrite nth_error_app2 by lia.
    rewrite nth_error_app2 by lia.
    replace (np + nl + i - List.length P - List.length polylines)%nat
      with i by lia.
    rewrite nth_error_app1.
    + unfold R. rewrite nth_error_map, Hi. reflexivity.
    + rewrite HR. apply nth_error_Some. congruence.
  - intros i circle Hi.
    rewrite nth_error_app2 by lia.
    rewrite nth_error_app2 by lia.
    rewrite nth_error_app2 by lia.
    replace (np + nl + nr + i - List.length P - List.length polylines
             - List.length R)%nat with i by lia.
    rewrite nth_error_app1.
    + unfold C. rewrite nth_error_map, Hi. reflexivity.
    + rewrite HC. apply nth_error_Some. congruence.
  - rewrite nth_error_app2 by lia.
    rewrite nth_error_app2 by lia.
    rewrite nth_error_app2 by lia.
    rewrite nth_error_app2 by lia.
    replace (np + nl + nr + nc - List.length P - List.length polylines
             - List.length R - List.length C)%nat with 0%nat by lia.
    reflexivity.
  - rewrite nth_error_app2 by lia.
    rewrite nth_error_app2 by lia.
    rewrite nth_error_app2 by lia.
    rewrite nth_error_app2 by lia.
    replace (np + nl + nr + nc + 1 - List.length P - List.length polylines
             - List.length R - List.length C)%nat with 1%nat by lia.
    reflexivity.
Qed.

(** Every point is a group holding a circle of radius 3; the group holds a
    text as well, 5 to the right of and 5 above the center of the circle and
    with the label as its content, exactly when the label is present and
    not the empty string. *)
Theorem label_text_only_for_truthy_labels
    (graphics : Graphics.t num) (doc : Node num) i point :
  getSvgFromGraphicsObject graphics = Ok doc ->
  nth_error (array_or (Graphics.points graphics)) i = Some point ->
  exists group circle,
    nth_error (children doc) i = Some group /\
    nodeName group = Some "g" /\
    nodeName circle = Some "circle" /\
    attribute "r" circle = Some (str "3") /\
    match Point.label point with
    | None | Some "" => children group = [circle]
    | Some label =>
        exists text cx cy,
          children group = [circle; text] /\
          nodeName text = Some "text" /\
          children text = [TextNode (str label)] /\
          numberOf (attribute "cx" circle) = Some cx /\
          numberOf (attribute "cy" circle) = Some cy /\
          numberOf (attribute "x" text) = Some (add cx (lit 5)) /\
          numberOf (attribute "y" text) = Some (sub cy (lit 5))
    end.
Proof.
  intros Hdoc Hi.
  rewrite (svg_point_child graphics i Hdoc Hi).
  unfold pointNode. cbv zeta.
  destruct (Point.label point) as [[|a s]|]; cbn [truthy_string String.eqb].
  - do 2 eexists. repeat split; reflexivity.
  - do 2 eexists. split; [reflexivity|]. do 3 (split; [shelve|]).
    do 3 eexists. repeat split.
    Unshelve. all: reflexivity.
  - do 2 eexists. repeat split; reflexivity.
Qed.

End Structure.

(** The scene with one primitive of each kind and a labelled point. *)
Lemma paint_order_witness :
  List.length (children Gallery.fullDocument) = 7%nat /\
  (forall i rect,
     nth_error [Gallery.box] i = Some rect ->
     nth_error (children Gallery.fullDocument) (2 + 1 + i)
     = Some (rectNode (sceneMatrix Gallery.full) rect)) /\
  (forall i circle,
     nth_error [Gallery.disc] i = Some circle ->
     nth_error (children Gallery.fullDocument) (2 + 1 + 1 + i)
     = Some (circleNode (sceneMatrix Gallery.full) circle)) /\
  nth_error (children Gallery.fullDocument) 5 = Some crosshairNode /\
  nth_error (children Gallery.fullDocument) 6
  = Some (scriptNode (sceneMatrix Gallery.full)).
Proof.
  apply (paint_order Gallery.full Gallery.fullDocument).
  vm_compute. reflexivity.
Defined.

(** The point labelled "A". *)
Lemma label_text_only_for_truthy_labels_witness :
  exists group circle,
    nth_error (children Gallery.fullDocument) 0 = Some group /\
    nodeName group = Some "g" /\
    nodeName circle = Some "circle" /\
    attribute "r" circle = Some (str "3") /\
    exists text cx cy,
      children group = [circle; text] /\
      nodeName text = Some "text" /\
      children text = [TextNode (str "A")] /\
      numberOf (attribute "cx" circle) = Some cx /\
      numberOf (attribute "cy" circle) = Some cy /\
      numberOf (attribute "x" text) = Some (PrimFloat.add cx 5) /\
      numberOf (attribute "y" text) = Some (PrimFloat.sub cy 5).
Proof.
  assert (Hdoc : getSvgFromGraphicsObject Gallery.full
                 = Ok Gallery.fullDocument) by (vm_compute; reflexivity).
  exact (label_text_only_for_truthy_labels Gallery.full Gallery.fullDocument
           0%nat Gallery.labelled Hdoc eq_refl).
Defined.

(** ** The tightest box, in exact arithmetic *)

Section MoreExact.
Local Open Scope Q_scope.

Lemma xmax_attained a b :
  exists m, xmax (XFin a) (XFin b) = XFin m /\ (m == a \/ m == b).
Proof.
  unfold xmax, xltb. destruct (Qle_bool b a); simpl.
  - exists a. split; [reflexivity|left; reflexivity].
  - exists b. split; [reflexivity|right; reflexivity].
Qed.

Lemma xmin_attained a b :
  exists m, xmin (XFin a) (XFin b) = XFin m /\ (m == a \/ m == b).
Proof.
  destruct (xmin_fin a b) as (m & Hm & _ & _ & Hor). exists m. auto.
Qed.

Lemma fold_extend_attained ps :
  Forall finitePoint ps ->
  forall a0 a1 b0 b1,
  exists x0 x1 y0 y1,
    fold_left extend ps (finiteBounds a0 a1 b0 b1)
    = finiteBounds x0 x1 y0 y1 /\
    (x0 == a0 \/ hitX x0 ps) /\ (x1 == a1 \/ hitX x1 ps) /\
    (y0 == b0 \/ hitY y0 ps) /\ (y1 == b1 \/ hitY y1 ps).
Proof.
  induction 1 as [|p ps Hp Hps IH]; intros a0 a1 b0 b1.
  - exists a0, a1, b0, b1. repeat split; left; reflexivity.
  - destruct Hp as (u & v & Hu & Hv).
    destruct (xmin_attained a0 u) as (c0 & Hc0 & Hc0').
    destruct (xmax_attained a1 u) as (c1 & Hc1 & Hc1').
    destruct (xmin_attained b0 v) as (d0 & Hd0 & Hd0').
    destruct (xmax_attained b1 v) as (d1 & Hd1 & Hd1').
    assert (Hstep : extend (finiteBounds a0 a1 b0 b1) p
                    = finiteBounds c0 c1 d0 d1).
    { unfold extend, finiteBounds.
      cbn [Bounds.minX Bounds.maxX Bounds.minY Bounds.maxY Math_min Math_max
           xnum_Number].
      rewrite Hu, Hv, Hc0, Hc1, Hd0, Hd1. reflexivity. }
    destruct (IH c0 c1 d0 d1)
      as (x0 & x1 & y0 & y1 & Hfold & Hx0 & Hx1 & Hy0 & Hy1).
    exists x0, x1, y0, y1. simpl. rewrite Hstep.
    split; [assumption|].
    assert (Hhere : forall q, q == u -> hitX q (p :: ps)).
    { intros q Hq. left. exists u, v. repeat split; try assumption.
      symmetry. assumption. }
    assert (Hhere' : forall q, q == v -> hitY q (p :: ps)).
    { intros q Hq. left. exists u, v. repeat split; try assumption.
      symmetry. assumption. }
    repeat split.
    + destruct Hx0 as [E|Hin]; [|right; right; assumption].
      destruct Hc0' as [E'|E']; [left|right; apply Hhere]; rewrite E, E';
        reflexivity.
    + destruct Hx1 as [E|Hin]; [|right; right; assumption].
      destruct Hc1' as [E'|E']; [left|right; apply Hhere]; rewrite E, E';
        reflexivity.
    + destruct Hy0 as [E|Hin]; [|right; right; assumption].
      destruct Hd0' as [E'|E']; [left|right; apply Hhere']; rewrite E, E';
        reflexivity.
    + destruct Hy1 as [E|Hin]; [|right; right; assumption].
      destruct Hd1' as [E'|E']; [left|right; apply Hhere']; rewrite E, E';
        reflexivity.
Qed.

(** The bounds are the tightest box: they contain every collected point,
    and each of the four bounds is the coordinate of one of them. *)
Theorem exact_bounds_are_tight (graphics : Graphics.t xnum) :
  boundsPoints graphics <> [] ->
  Forall finitePoint (boundsPoints graphics) ->
  exists x0 x1 y0 y1,
    getBounds graphics = finiteBounds x0 x1 y0 y1 /\
    Forall (within x0 x1 y0 y1) (boundsPoints graphics) /\
    hitX x0 (boundsPoints graphics) /\ hitX x1 (boundsPoints graphics) /\
    hitY y0 (boundsPoints graphics) /\ hitY y1 (boundsPoints graphics).
Proof.
  intros Hne Hfin.
  destruct (getBounds_fin graphics Hne Hfin)
    as (x0 & x1 & y0 & y1 & Hb & _ & _ & Hall).
  exists x0, x1, y0, y1. split; [assumption|]. split; [assumption|].
  revert Hb. unfold getBounds.
  destruct (boundsPoints graphics) as [|p ps]; [contradiction|].
  inversion Hfin as [|? ? Hp Hps]; subst.
  destruct Hp as (u & v & Hu & Hv).
  assert (Hfirst :
    extend (Bounds.mk Infinity (neg Infinity) Infinity (neg Infinity)) p
    = finiteBounds u u v v).
  { unfold extend, finiteBounds. cbn. rewrite Hu, Hv. reflexivity. }
  cbn [fold_left]. rewrite Hfirst.
  destruct (fold_extend_attained ps Hps u u v v)
    as (a0 & a1 & b0 & b1 & -> & Ha0 & Ha1 & Hb0 & Hb1).
  intros [= -> -> -> ->].
  assert (Hhere : forall q, q == u -> hitX q (p :: ps)).
  { intros q Hq. left. exists u, v. repeat split; try assumption.
    symmetry. assumption. }
  assert (Hhere' : forall q, q == v -> hitY q (p :: ps)).
  { intros q Hq. left. exists u, v. repeat split; try assumption.
    symmetry. assumption. }
  repeat split.
  - destruct Ha0 as [E|Hin]; [apply Hhere; assumption|right; assumption].
  - destruct Ha1 as [E|Hin]; [apply Hhere; assumption|right; assumption].
  - destruct Hb0 as [E|Hin]; [apply Hhere'; assumption|right; assumption].
  - destruct Hb1 as [E|Hin]; [apply Hhere'; assumption|right; assumption].
Qed.

(** *** On the scene [Gallery.exactFull] *)

Lemma exactFull_points_finite cs :
  Forall finitePoint (boundsPoints (Gallery.exactFull cs)).
Proof.
  repeat (apply Forall_cons; [do 2 eexists; split; reflexivity|]).
  apply Forall_nil.
Qed.

Lemma exact_bounds_are_tight_witness :
  exists x0 x1 y0 y1,
    getBounds (Gallery.exactFull math) = finiteBounds x0 x1 y0 y1 /\
    Forall (within x0 x1 y0 y1) (boundsPoints (Gallery.exactFull math)) /\
    hitX x0 (boundsPoints (Gallery.exactFull math)) /\
    hitX x1 (boundsPoints (Gallery.exactFull math)) /\
    hitY y0 (boundsPoints (Gallery.exactFull math)) /\
    hitY y1 (boundsPoints (Gallery.exactFull math)).
Proof.
  apply (exact_bounds_are_tight (Gallery.exactFull math)).
  - discriminate.
  - apply exactFull_points_finite.
Defined.

End MoreExact.
